(** * Gaming Twin Backend: the twin-update engine of [main.py]

    A shallow embedding of the four request handlers of [main.py]
    ([ingest_event], [get_twin], [get_report], [update_threshold]) over an
    explicit model of the two PostgreSQL relations they touch, followed by
    the properties of the engine.

    Conventions.
    - Python integers are unbounded: [Z].
    - A JSON object stored in a JSONB column is a finite map from keys to
      integers, [gmap string Z]: integers are the only values the handlers
      ever write into [aggregates] and [thresholds].
    - A nullable column is an [option].
    - A handler runs against one database connection.  Statements act on
      the connection's working copy; [conn.commit()] publishes it.  A
      handler that leaves through its [except] clause never commits, and
      the abandoned connection's transaction is rolled back. *)

From Stdlib Require Import ZArith Lia List.
From stdpp Require Import gmap strings list fin_maps.

Local Open Scope string_scope.
Local Open Scope Z_scope.

(** ** Request models (pydantic) *)

Record GamingEvent := {
  user_id : string;
  game_name : string;
  duration : Z            (* minutes *)
}.

Record ThresholdUpdate := {
  daily : option Z;
  night : option Z
}.

(** ** Time of day ([datetime.time]) *)

Module Clock.

Record time := Time {
  hour : Z;
  minute : Z;
  second : Z;
  microsecond : Z
}.

(** [time(h, m)] *)
Definition hm (h m : Z) : time := Time h m 0 0.

(** A value [datetime.now().time()] can return. *)
Definition valid (t : time) : Prop :=
  0 <= hour t < 24 /\ 0 <= minute t < 60 /\
  0 <= second t < 60 /\ 0 <= microsecond t < 1000000.

(** Python compares naive times as the tuples
    [(hour, minute, second, microsecond)]. *)
Definition cmp (a b : time) : comparison :=
  match hour a ?= hour b with
  | Eq =>
      match minute a ?= minute b with
      | Eq =>
          match second a ?= second b with
          | Eq => microsecond a ?= microsecond b
          | c => c
          end
      | c => c
      end
  | c => c
  end.

(** [a >= b] *)
Definition geb (a b : time) : bool :=
  match cmp a b with Lt => false | _ => true end.

(** [a <= b] *)
Definition leb (a b : time) : bool :=
  match cmp a b with Gt => false | _ => true end.

(** Microseconds elapsed since midnight. *)
Definition since_midnight (t : time) : Z :=
  ((hour t * 60 + minute t) * 60 + second t) * 1000000 + microsecond t.

(** The test of line 104: [now >= time(22, 0) or now <= time(6, 0)]. *)
Definition is_night (now : time) : bool :=
  geb now (hm 22 0) || leb now (hm 6 0).

End Clock.

(** ** Behavioural state *)

Inductive State := Healthy | Moderate | Excessive.

#[global] Instance State_eq_dec : EqDecision State.
Proof. solve_decision. Defined.

(** Lines 108-114: the three-way test on [new_today]. *)
Definition classify (new_today : Z) : State :=
  if 120 <? new_today then Excessive
  else if 60 <? new_today then Moderate
  else Healthy.

(** ** JSON objects *)

Abbreviation dict := (gmap string Z).

(** [d.get(key, default)] *)
Definition get (d : dict) (key : string) (default : Z) : Z :=
  match d !! key with
  | Some v => v
  | None => default
  end.

(** Truthiness of an optional dict: [None] and [{}] are falsy. *)
Definition truthy (d : option dict) : bool :=
  match d with
  | Some m => negb (bool_decide (m = ∅))
  | None => false
  end.

(** [d or fallback] *)
Definition or_else (d : option dict) (fallback : dict) : dict :=
  match d with
  | Some m => if truthy d then m else fallback
  | None => fallback
  end.

Definition zero_aggregates : dict :=
  <["today_minutes" := 0]> (<["weekly_minutes" := 0]> (<["night_minutes" := 0]> ∅)).

Definition default_thresholds : dict :=
  <["daily" := 120]> (<["night" := 60]> ∅).

(** ** The two relations *)

(** One row of [digital_twins]; [user_id] is the key of the table. *)
Record Twin := {
  thresholds : option dict;
  aggregates : option dict;
  state : option State;
  updated_at : option Z
}.

(** [events] is an append-only ledger, [digital_twins] is keyed by its
    primary key [user_id]. *)
Record DB := {
  events : list (string * string * Z);
  digital_twins : gmap string Twin
}.

(** ** Connections, statements and exceptions *)

(** The calls of a handler that reach the store. *)
Inductive op :=
| Connect          (* get_db_connection() *)
| Insert_events    (* INSERT INTO events *)
| Insert_twin      (* INSERT INTO digital_twins ... ON CONFLICT DO NOTHING *)
| Select           (* SELECT ... FROM digital_twins + fetchone() *)
| Update           (* UPDATE digital_twins *)
| Commit           (* conn.commit() *)
| Close_cursor     (* cur.close() *)
| Close_conn.      (* conn.close() *)

#[global] Instance op_eq_dec : EqDecision op.
Proof. solve_decision. Defined.

(** The calls that read or write persisted data; the two [close] calls
    only release the connection. *)
Definition persistence_step (o : op) : bool :=
  match o with
  | Close_cursor | Close_conn => false
  | _ => true
  end.

(** What a handler cannot control: the wall clock read by
    [datetime.now()], the database's [NOW()], and which call raises (with
    [str(e)] of the exception). *)
Record world := {
  wall_clock : Clock.time;
  db_clock : Z;
  fault : op -> option string
}.

Definition no_fault : op -> option string := fun _ => None.

(** A connection: the committed store, the transaction's working copy and
    the calls issued so far. *)
Record session := {
  committed : DB;
  working : DB;
  trace : list op
}.

Inductive outcome (A : Type) :=
| Returned (a : A)
| Raised (message : string).
Arguments Returned {A} a.
Arguments Raised {A} message.

Definition M (A : Type) : Type := session -> outcome A * session.

Definition ret {A} (a : A) : M A := fun s => (Returned a, s).

Definition bind {A B} (c : M A) (k : A -> M B) : M B := fun s =>
  match c s with
  | (Returned a, s') => k a s'
  | (Raised msg, s') => (Raised msg, s')
  end.

Notation "'let!' x ':=' c 'in' k" := (bind c (fun x => k))
  (at level 10, x name, c at level 100, k at level 200).
Notation "c '>>' k" := (bind c (fun _ => k))
  (at level 100, k at level 200, right associativity).

Definition open_session (d : DB) : session :=
  {| committed := d; working := d; trace := [] |}.

(** ** Handlers *)

Inductive response :=
| Processed (uid game : string) (today_minutes weekly_minutes : Z) (st : State)
| Error (message : string)        (* {"status": "error", "message": str(e)} *)
| UserNotFound                    (* {"error": "User not found"} *)
| TwinView (uid : string) (th ag : option dict) (st : option State)
| Report (uid : string) (today_minutes weekly_minutes night_minutes : Z)
         (st : option State) (daily_threshold night_threshold : Z)
| ThresholdsSet (uid : string) (th : dict).

(** Lines 85-114 of [ingest_event]: from the fetched row to the values
    written back. *)
Record increment := {
  new_aggregates : dict;
  new_today : Z;
  new_weekly : Z;
  new_state : State
}.

Definition apply_duration (now : Clock.time) (d : Z)
    (row : option (option dict)) : increment :=
  let aggregates :=
    match row with
    | Some (Some a) => Some a
    | _ => None
    end in
  let aggregates := or_else aggregates zero_aggregates in
  let new_today := get aggregates "today_minutes" 0 + d in
  let aggregates := <["today_minutes" := new_today]> aggregates in
  let new_weekly := get aggregates "weekly_minutes" 0 + d in
  let aggregates := <["weekly_minutes" := new_weekly]> aggregates in
  let aggregates :=
    if Clock.is_night now
    then <["night_minutes" := get aggregates "night_minutes" 0 + d]> aggregates
    else aggregates in
  {| new_aggregates := aggregates;
     new_today := new_today;
     new_weekly := new_weekly;
     new_state := classify new_today |}.

(** The column defaults of [digital_twins].  The table's definition is not
    part of [main.py]; a bare [INSERT INTO digital_twins (user_id)] fills
    every column but the key from it.  [updated_at_default] receives the
    database's [NOW()]. *)
Record schema := {
  thresholds_default : option dict;
  aggregates_default : option dict;
  state_default : option State;
  updated_at_default : Z -> option Z
}.

Definition blank_twin (sc : schema) (t : Z) : Twin :=
  {| thresholds := thresholds_default sc;
     aggregates := aggregates_default sc;
     state := state_default sc;
     updated_at := updated_at_default sc t |}.

Section Handlers.

Variable sc : schema.

(** *** Statements, as functions on a store *)

Definition insert_event (e : GamingEvent) (d : DB) : DB :=
  {| events := events d ++ [(user_id e, game_name e, duration e)];
     digital_twins := digital_twins d |}.

Definition insert_twin (t : Z) (uid : string) (d : DB) : DB :=
  match digital_twins d !! uid with
  | Some _ => d                                   (* ON CONFLICT DO NOTHING *)
  | None =>
      {| events := events d;
         digital_twins := <[uid := blank_twin sc t]> (digital_twins d) |}
  end.

Definition select_twin (uid : string) (d : DB) : option Twin :=
  digital_twins d !! uid.

Definition set_aggregates (t : Z) (a : dict) (st : State) (r : Twin) : Twin :=
  {| thresholds := thresholds r;
     aggregates := Some a;
     state := Some st;
     updated_at := Some t |}.

Definition set_thresholds (t : Z) (th : dict) (r : Twin) : Twin :=
  {| thresholds := Some th;
     aggregates := aggregates r;
     state := state r;
     updated_at := Some t |}.

(** [UPDATE digital_twins SET ... WHERE user_id = uid]: no row, no change. *)
Definition update_twin (f : Twin -> Twin) (uid : string) (d : DB) : DB :=
  {| events := events d;
     digital_twins := alter f uid (digital_twins d) |}.

(** *** Calls on a connection *)

Section Calls.
Variable w : world.

Definition attempt {A} (o : op) (f : session -> A * session) : M A :=
  fun s =>
    let s := {| committed := committed s; working := working s;
                trace := trace s ++ [o] |} in
    match fault w o with
    | Some msg => (Raised msg, s)
    | None => let (a, s') := f s in (Returned a, s')
    end.

Definition get_db_connection : M unit :=
  attempt Connect (fun s => (tt, s)).

Definition execute (o : op) (f : DB -> DB) : M unit :=
  attempt o (fun s =>
    (tt, {| committed := committed s; working := f (working s);
            trace := trace s |})).

Definition fetchone {A} (q : DB -> A) : M A :=
  attempt Select (fun s => (q (working s), s)).

Definition commit : M unit :=
  attempt Commit (fun s =>
    (tt, {| committed := working s; working := working s;
            trace := trace s |})).

Definition close (o : op) : M unit :=
  attempt o (fun s => (tt, s)).

(** [POST /events], the [try] block. *)
Definition ingest_event_try (event : GamingEvent) : M response :=
  get_db_connection >>
  execute Insert_events (insert_event event) >>
  execute Insert_twin (insert_twin (db_clock w) (user_id event)) >>
  let! row := fetchone (fun d => aggregates <$> select_twin (user_id event) d) in
  let u := apply_duration (wall_clock w) (duration event) row in
  execute Update
    (update_twin (set_aggregates (db_clock w) (new_aggregates u) (new_state u))
                 (user_id event)) >>
  commit >>
  close Close_cursor >>
  close Close_conn >>
  ret (Processed (user_id event) (game_name event)
                 (new_today u) (new_weekly u) (new_state u)).

(** [GET /digital-twin/{user_id}], the [try] block. *)
Definition get_twin_try (uid : string) : M response :=
  get_db_connection >>
  let! result := fetchone (select_twin uid) in
  close Close_cursor >>
  close Close_conn >>
  ret (match result with
       | Some r => TwinView uid (thresholds r) (aggregates r) (state r)
       | None => UserNotFound
       end).

(** [GET /reports/{user_id}], the [try] block. *)
Definition get_report_try (uid : string) : M response :=
  get_db_connection >>
  let! row := fetchone (select_twin uid) in
  close Close_cursor >>
  close Close_conn >>
  ret (match row with
       | None => UserNotFound
       | Some r =>
           let th := or_else (thresholds r) ∅ in
           let ag := or_else (aggregates r) ∅ in
           Report uid
             (get ag "today_minutes" 0)
             (get ag "weekly_minutes" 0)
             (get ag "night_minutes" 0)
             (state r)
             (get th "daily" 120)
             (get th "night" 60)
       end).

(** Lines 243-246: only the supplied fields are assigned. *)
Definition merge_thresholds (body : ThresholdUpdate) (th : dict) : dict :=
  let th :=
    match daily body with
    | Some v => <["daily" := v]> th
    | None => th
    end in
  match night body with
  | Some v => <["night" := v]> th
  | None => th
  end.

(** [POST /digital-twin/{user_id}/threshold], the [try] block. *)
Definition update_threshold_try (uid : string) (body : ThresholdUpdate)
  : M response :=
  get_db_connection >>
  let! row := fetchone (fun d => thresholds <$> select_twin uid d) in
  let! th :=
    match row with
    | None =>
        execute Insert_twin (insert_twin (db_clock w) uid) >>
        ret default_thresholds
    | Some col => ret (or_else col default_thresholds)
    end in
  let th := merge_thresholds body th in
  execute Update (update_twin (set_thresholds (db_clock w) th) uid) >>
  commit >>
  close Close_cursor >>
  close Close_conn >>
  ret (ThresholdsSet uid th).

End Calls.

(** A handler call: run the [try] block on a fresh connection; the
    [except] clause turns an exception into the error envelope.  The
    store that remains is the committed one. *)
Definition handle (body : M response) (d : DB) : response * session :=
  match body (open_session d) with
  | (Returned r, s) => (r, s)
  | (Raised msg, s) => (Error msg, s)
  end.

Definition ingest_event (w : world) (event : GamingEvent) (d : DB)
  : response * DB :=
  let (r, s) := handle (ingest_event_try w event) d in (r, committed s).

Definition get_twin (w : world) (uid : string) (d : DB) : response * DB :=
  let (r, s) := handle (get_twin_try w uid) d in (r, committed s).

Definition get_report (w : world) (uid : string) (d : DB) : response * DB :=
  let (r, s) := handle (get_report_try w uid) d in (r, committed s).

Definition update_threshold (w : world) (uid : string)
    (body : ThresholdUpdate) (d : DB) : response * DB :=
  let (r, s) := handle (update_threshold_try w uid body) d in (r, committed s).

End Handlers.

(** ** Reading a twin *)

(** The value of a counter in an [aggregates] column, as every reader of
    the column takes it: a null or empty object counts as zero, and so
    does a missing key. *)
Definition counter (key : string) (a : option dict) : Z :=
  get (or_else a ∅) key 0.

(** The [aggregates] column of [uid]'s twin once the row exists: the
    stored one, or the one a fresh row gets. *)
Definition loaded_aggregates (sc : schema) (d : DB) (uid : string)
  : option dict :=
  match digital_twins d !! uid with
  | Some r => aggregates r
  | None => aggregates_default sc
  end.

Definition today_minutes_of (sc : schema) (d : DB) (uid : string) : Z :=
  counter "today_minutes" (loaded_aggregates sc d uid).

Definition weekly_minutes_of (sc : schema) (d : DB) (uid : string) : Z :=
  counter "weekly_minutes" (loaded_aggregates sc d uid).

Definition night_minutes_of (sc : schema) (d : DB) (uid : string) : Z :=
  counter "night_minutes" (loaded_aggregates sc d uid).

(** ** Runs *)

(** The calls of [ingest_event] up to and including [conn.commit()], and
    the two after it. *)
Definition ingest_ops : list op :=
  [Connect; Insert_events; Insert_twin; Select; Update; Commit].

Definition release_ops : list op := [Close_cursor; Close_conn].

(** The first call of [ops] that raises, with its message. *)
Fixpoint first_fault (w : world) (ops : list op) : option (op * string) :=
  match ops with
  | [] => None
  | o :: rest =>
      match fault w o with
      | Some msg => Some (o, msg)
      | None => first_fault w rest
      end
  end.

(** What one committed [ingest_event] leaves in the store. *)
Definition persist_event (sc : schema) (now : Clock.time) (t : Z)
    (event : GamingEvent) (d : DB) : DB :=
  let d1 := insert_twin sc t (user_id event) (insert_event event d) in
  let u := apply_duration now (duration event)
             (aggregates <$> select_twin (user_id event) d1) in
  update_twin (set_aggregates t (new_aggregates u) (new_state u))
              (user_id event) d1.

(** Sequential application: each call returns before the next starts. *)
Definition run_events (sc : schema) (calls : list (world * GamingEvent))
    (d : DB) : DB :=
  fold_left (fun d c => snd (ingest_event sc (fst c) (snd c) d)) calls d.

(** Total duration of the events of [uid] in a list of calls. *)
Fixpoint minutes_for (uid : string) (evs : list GamingEvent) : Z :=
  match evs with
  | [] => 0
  | e :: rest =>
      (if bool_decide (user_id e = uid) then duration e else 0)
      + minutes_for uid rest
  end.

Definition total_duration (evs : list GamingEvent) : Z :=
  foldr (fun e acc => duration e + acc) 0 evs.

(** The three counters of [uid] read zero. *)
Definition zeroed (sc : schema) (d : DB) (uid : string) : Prop :=
  today_minutes_of sc d uid = 0 /\
  weekly_minutes_of sc d uid = 0 /\
  night_minutes_of sc d uid = 0.

(** The calls of the two read handlers and of [update_threshold]. *)
Definition read_ops : list op := [Connect; Select; Close_cursor; Close_conn].

Definition threshold_ops : list op :=
  [Connect; Select; Insert_twin; Update; Commit; Close_cursor; Close_conn].

(** The thresholds [update_threshold] starts from (lines 229-241). *)
Definition prior_thresholds (d : DB) (uid : string) : dict :=
  match digital_twins d !! uid with
  | None => default_thresholds
  | Some r => or_else (thresholds r) default_thresholds
  end.

(** The calls issued when [ops] is run in order until one raises. *)
Fixpoint until_fault (w : world) (ops : list op) : list op :=
  match ops with
  | [] => []
  | o :: rest =>
      match fault w o with
      | Some _ => [o]
      | None => o :: until_fault w rest
      end
  end.

(** Modelled from the spec: the column defaults of [digital_twins], whose
    definition is missing from the source.  The spec has a twin created
    "with default thresholds [{daily:120, night:60}] and zeroed
    aggregates"; it names no initial state and no initial timestamp, which
    stay parameters. *)
Definition spec_schema (st : option State) (ts : Z -> option Z) : schema :=
  {| thresholds_default := Some default_thresholds;
     aggregates_default := Some zero_aggregates;
     state_default := st;
     updated_at_default := ts |}.

(** What a call adds to a counter of [uid]: nothing unless it commits and
    is an event of [uid]. *)
Definition added (w : world) (e : GamingEvent) (uid : string) (x : Z) : Z :=
  match first_fault w ingest_ops with
  | Some _ => 0
  | None => if decide (user_id e = uid) then x else 0
  end.

(** The relation between the counters that sequential runs keep. *)
Definition balanced (sc : schema) (d : DB) (uid : string) : Prop :=
  today_minutes_of sc d uid = weekly_minutes_of sc d uid /\
  0 <= night_minutes_of sc d uid <= today_minutes_of sc d uid.

(** ** Small concrete inputs *)

(** A table whose columns all default to null, [updated_at] to [NOW()]. *)
Definition null_schema : schema :=
  {| thresholds_default := None;
     aggregates_default := None;
     state_default := None;
     updated_at_default := fun t => Some t |}.

(** A world in which no call raises. *)
Definition quiet (now : Clock.time) (t : Z) : world :=
  {| wall_clock := now; db_clock := t; fault := no_fault |}.

(** A world in which exactly the call [o] raises. *)
Definition failing (now : Clock.time) (t : Z) (o : op) (msg : string) : world :=
  {| wall_clock := now; db_clock := t;
     fault := fun o' => if decide (o' = o) then Some msg else None |}.

Definition empty_db : DB := {| events := []; digital_twins := ∅ |}.

Definition play (uid : string) (minutes : Z) : GamingEvent :=
  {| user_id := uid; game_name := "chess"; duration := minutes |}.

(** ** Concurrent requests

    Each request owns a connection.  PostgreSQL's default isolation level,
    which [psycopg2.connect] leaves in place, is read committed: a
    statement sees what was committed before it started, together with
    the writes of its own transaction, and those writes reach the other
    connections at [conn.commit()].  A request therefore meets the shared
    store twice: when its [SELECT] reads the row, and when its [UPDATE] is
    committed.  Between the two it holds the fetched row in a local
    variable.

    When the user's row exists, no statement of the handler waits for
    another connection before its [UPDATE], so the two meetings of
    different requests can come in any order.  (When the row is missing,
    the second [INSERT] waits for the transaction of the first; the
    overlapping schedules studied below start from an existing row.) *)

Inductive phase :=
| Ready                                   (* nothing fetched yet *)
| Loaded (row : option (option dict))     (* [row] fetched, nothing written *)
| Finished (r : response).

Record request := {
  req_now : Clock.time;
  req_db_clock : Z;
  req_event : GamingEvent;
  req_phase : phase
}.

Definition with_phase (r : request) (p : phase) : request :=
  {| req_now := req_now r; req_db_clock := req_db_clock r;
     req_event := req_event r; req_phase := p |}.

Definition request_step (sc : schema) (r : request) (d : DB)
  : request * DB :=
  let e := req_event r in
  let d1 := insert_twin sc (req_db_clock r) (user_id e) (insert_event e d) in
  match req_phase r with
  | Ready =>
      (with_phase r (Loaded (aggregates <$> select_twin (user_id e) d1)), d)
  | Loaded row =>
      let u := apply_duration (req_now r) (duration e) row in
      (with_phase r
         (Finished (Processed (user_id e) (game_name e)
                              (new_today u) (new_weekly u) (new_state u))),
       update_twin
         (set_aggregates (req_db_clock r) (new_aggregates u) (new_state u))
         (user_id e) d1)
  | Finished _ => (r, d)
  end.

(** A schedule names, step by step, the request that moves next. *)
Fixpoint run_schedule (sc : schema) (sched : list nat) (pool : list request)
    (d : DB) : list request * DB :=
  match sched with
  | [] => (pool, d)
  | i :: rest =>
      match pool !! i with
      | Some r =>
          let (r', d') := request_step sc r d in
          run_schedule sc rest (<[i := r']> pool) d'
      | None => run_schedule sc rest pool d
      end
  end.

(** The requests of [order] run one at a time: each does its read and its
    write before the next one starts. *)
Definition one_at_a_time (order : list nat) : list nat :=
  flat_map (fun i => [i; i]) order.

(** Every one of [n] requests reads before any of them writes. *)
Definition reads_then_writes (n : nat) : list nat := seq 0 n ++ seq 0 n.

(** The store after the requests of [pool] named by [order] have been
    committed in that order. *)
Definition commit_in_order (sc : schema) (pool : list request)
    (order : list nat) (d : DB) : DB :=
  fold_left
    (fun d i =>
       match pool !! i with
       | Some r => persist_event sc (req_now r) (req_db_clock r) (req_event r) d
       | None => d
       end)
    order d.

(** The events of the requests named by [order]. *)
Definition events_of (pool : list request) (order : list nat)
  : list GamingEvent :=
  omap (fun i => req_event <$> pool !! i) order.

Definition is_ready (r : request) : Prop := req_phase r = Ready.

Definition is_finished (r : request) : Prop :=
  match req_phase r with Finished _ => True | _ => False end.

Definition fresh_request (now : Clock.time) (t : Z) (e : GamingEvent)
  : request :=
  {| req_now := now; req_db_clock := t; req_event := e; req_phase := Ready |}.

(** Two requests for a user who has already played 10 minutes, and a
    hundred one-minute requests for a user whose counters are at zero. *)
Definition ana_played_10 : DB :=
  snd (ingest_event null_schema (quiet (Clock.hm 12 0) 1) (play "ana" 10)
         empty_db).

Definition ana_at_zero : DB :=
  snd (ingest_event null_schema (quiet (Clock.hm 12 0) 1) (play "ana" 0)
         empty_db).

Definition two_requests : list request :=
  [fresh_request (Clock.hm 12 0) 2 (play "ana" 30);
   fresh_request (Clock.hm 12 0) 3 (play "ana" 45)].

Definition hundred_requests : list request :=
  map (fun i => fresh_request (Clock.hm 12 0) (Z.of_nat i) (play "ana" 1))
      (seq 0 100).

(** ** The rest of the handlers' surface *)

(** [GET /health]: the two objects the handler can return. *)
Inductive health_response :=
| HealthOk                          (* {"status": "healthy", "database": ...} *)
| HealthError (message : string).   (* {"status": "error", "message": str(e)} *)

(** [GET /health], the [try] block: connect, close the connection. *)
Definition health_try (w : world) : M health_response :=
  get_db_connection w >>
  close w Close_conn >>
  ret HealthOk.

Definition health (w : world) (d : DB) : health_response * session :=
  match health_try w (open_session d) with
  | (Returned r, s) => (r, s)
  | (Raised msg, s) => (HealthError msg, s)
  end.

Definition health_ops : list op := [Connect; Close_conn].

(** The calls that change rows or publish changes. *)
Definition is_write (o : op) : bool :=
  match o with
  | Insert_events | Insert_twin | Update | Commit => true
  | _ => false
  end.

(** The calls [update_threshold] issues up to its commit: the [INSERT] is
    reached only when the [SELECT] found no row. *)
Definition update_ops (d : DB) (uid : string) : list op :=
  match digital_twins d !! uid with
  | Some _ => [Connect; Select; Update; Commit]
  | None => [Connect; Select; Insert_twin; Update; Commit]
  end.

(** Minutes the ledger holds for [uid]. *)
Fixpoint ledger_minutes (uid : string) (l : list (string * string * Z)) : Z :=
  match l with
  | [] => 0
  | (u, _, m) :: rest =>
      (if bool_decide (u = uid) then m else 0) + ledger_minutes uid rest
  end.

(** Healthy < Moderate < Excessive. *)
Definition severity (s : State) : Z :=
  match s with
  | Healthy => 0
  | Moderate => 1
  | Excessive => 2
  end.

(** The columns of a row that carry data; [updated_at] is bookkeeping. *)
Definition content (r : Twin) : option dict * option dict * option State :=
  (thresholds r, aggregates r, state r).

(** Sequential calls of both writing handlers. *)
Inductive call :=
| Ingest (w : world) (event : GamingEvent)
| SetThresholds (w : world) (uid : string) (body : ThresholdUpdate).

Definition run_call (sc : schema) (c : call) (d : DB) : response * DB :=
  match c with
  | Ingest w e => ingest_event sc w e d
  | SetThresholds w uid body => update_threshold sc w uid body d
  end.

Definition run_calls (sc : schema) (calls : list call) (d : DB) : DB :=
  fold_left (fun d c => snd (run_call sc c d)) calls d.

(** The ledger rows a sequence of calls commits, in order. *)
Fixpoint logged (calls : list call) : list (string * string * Z) :=
  match calls with
  | [] => []
  | Ingest w e :: rest =>
      match first_fault w ingest_ops with
      | None => (user_id e, game_name e, duration e) :: logged rest
      | Some _ => logged rest
      end
  | SetThresholds _ _ _ :: rest => logged rest
  end.

(** A stored state agrees with the stored [today_minutes]. *)
Definition state_consistent (sc : schema) (d : DB) (uid : string) : Prop :=
  forall r, digital_twins d !! uid = Some r ->
            state r = Some (classify (today_minutes_of sc d uid)).

(** Every request of a pool takes one step, in pool order. *)
Fixpoint sweep (sc : schema) (pool : list request) (d : DB)
  : list request * DB :=
  match pool with
  | [] => ([], d)
  | r :: rest =>
      let (r', d1) := request_step sc r d in
      let (rest', d2) := sweep sc rest d1 in
      (r' :: rest', d2)
  end.

(** The ledger row of an event. *)
Definition ledger_row (e : GamingEvent) : string * string * Z :=
  (user_id e, game_name e, duration e).


(** A table whose thresholds column defaults to [{daily: 200}]. *)
Definition strict_schema : schema :=
  {| thresholds_default := Some (<["daily" := 200]> ∅);
     aggregates_default := None;
     state_default := None;
     updated_at_default := fun t => Some t |}.

(** * Properties *)

(** ** Time of day *)

Module ClockFacts.
Import Clock.

Lemma cmp_since_midnight (a b : time) :
  valid a -> valid b ->
  cmp a b = (since_midnight a ?= since_midnight b).
Proof.
  intros (Ha & Hma & Hsa & Hua) (Hb & Hmb & Hsb & Hub).
  unfold cmp, since_midnight.
  destruct a as [ha ma sa ua], b as [hb mb sb ub]; simpl in *.
  symmetry.
  destruct (Z.compare_spec ha hb) as [-> | Hh | Hh].
  - destruct (Z.compare_spec ma mb) as [-> | Hm | Hm].
    + destruct (Z.compare_spec sa sb) as [-> | Hs | Hs].
      * destruct (Z.compare_spec ua ub) as [-> | Hu | Hu].
        -- apply Z.compare_refl.
        -- apply Z.compare_lt_iff. lia.
        -- apply Z.compare_gt_iff. lia.
      * apply Z.compare_lt_iff. lia.
      * apply Z.compare_gt_iff. lia.
    + apply Z.compare_lt_iff. lia.
    + apply Z.compare_gt_iff. lia.
  - apply Z.compare_lt_iff. lia.
  - apply Z.compare_gt_iff. lia.
Qed.

Lemma valid_hm h m : 0 <= h < 24 -> 0 <= m < 60 -> valid (hm h m).
Proof. unfold valid, hm; simpl; lia. Qed.

Lemma geb_since_midnight a b :
  valid a -> valid b ->
  geb a b = true <-> since_midnight b <= since_midnight a.
Proof.
  intros Ha Hb. unfold geb. rewrite (cmp_since_midnight a b Ha Hb).
  destruct (Z.compare_spec (since_midnight a) (since_midnight b));
    split; intros; try lia; try reflexivity; discriminate.
Qed.

Lemma leb_since_midnight a b :
  valid a -> valid b ->
  leb a b = true <-> since_midnight a <= since_midnight b.
Proof.
  intros Ha Hb. unfold leb. rewrite (cmp_since_midnight a b Ha Hb).
  destruct (Z.compare_spec (since_midnight a) (since_midnight b));
    split; intros; try lia; try reflexivity; discriminate.
Qed.

(** On clock readings the test of line 104 is the closed-ended window:
    at or after 22:00:00, or at or before 06:00:00.000000. *)
Lemma is_night_window (now : time) :
  valid now ->
  is_night now = true <->
  since_midnight (hm 22 0) <= since_midnight now \/
  since_midnight now <= since_midnight (hm 6 0).
Proof.
  intros Hv. unfold is_night. rewrite orb_true_iff.
  rewrite (geb_since_midnight now (hm 22 0) Hv) by (apply valid_hm; lia).
  rewrite (leb_since_midnight now (hm 6 0) Hv) by (apply valid_hm; lia).
  reflexivity.
Qed.

End ClockFacts.

(** ** The handlers, call by call *)

Ltac run_handler :=
  unfold handle, bind, get_db_connection, execute, fetchone, commit,
    close, attempt, ret, open_session; simpl.

Ltac split_faults w :=
  repeat match goal with
         | |- context [fault w ?o] =>
             destruct (fault w o) eqn:?; simpl; try reflexivity
         end.

(** From [first_fault w ops = None] to one equation per call of [ops]. *)
Ltac no_faults H :=
  unfold ingest_ops, release_ops, read_ops, threshold_ops in H;
  cbn [first_fault] in H;
  repeat match type of H with
         | context [fault ?w ?o] =>
             let E := fresh "Hcall" in
             destruct (fault w o) as [?|] eqn:E; [discriminate H|]
         end.

(** Use such equations wherever the goal consults [fault]. *)
Ltac calls_ok :=
  repeat (simpl;
          match goal with
          | E : fault ?w ?o = None |- context [fault ?w ?o] => rewrite !E
          end).

Section HandlerFacts.

Variable sc : schema.

(** [ingest_event] in closed form: the first raising call decides. *)
Lemma ingest_event_outcome (w : world) (e : GamingEvent) (d : DB) :
  ingest_event sc w e d =
  match first_fault w ingest_ops with
  | Some (_, msg) => (Error msg, d)
  | None =>
      let d' := persist_event sc (wall_clock w) (db_clock w) e d in
      let u := apply_duration (wall_clock w) (duration e)
                 (aggregates <$>
                    select_twin (user_id e)
                      (insert_twin sc (db_clock w) (user_id e)
                         (insert_event e d))) in
      match first_fault w release_ops with
      | Some (_, msg) => (Error msg, d')
      | None =>
          (Processed (user_id e) (game_name e)
                     (new_today u) (new_weekly u) (new_state u), d')
      end
  end.
Proof.
  unfold ingest_event, ingest_event_try, persist_event, ingest_ops,
    release_ops.
  run_handler. split_faults w.
Qed.

(** The calls [ingest_event] issues: the fixed sequence, cut at the first
    one that raises. *)
Lemma ingest_event_trace (w : world) (e : GamingEvent) (d : DB) :
  trace (snd (handle (ingest_event_try sc w e) d)) =
  until_fault w (ingest_ops ++ release_ops).
Proof.
  unfold ingest_event_try, ingest_ops, release_ops.
  run_handler. split_faults w.
Qed.

Lemma ingest_event_committed (w : world) (e : GamingEvent) (d : DB) :
  committed (snd (handle (ingest_event_try sc w e) d)) =
  snd (ingest_event sc w e d).
Proof.
  unfold ingest_event.
  by destruct (handle (ingest_event_try sc w e) d).
Qed.

Lemma get_twin_outcome (w : world) (uid : string) (d : DB) :
  get_twin w uid d =
  match first_fault w read_ops with
  | Some (_, msg) => (Error msg, d)
  | None =>
      (match digital_twins d !! uid with
       | Some r => TwinView uid (thresholds r) (aggregates r) (state r)
       | None => UserNotFound
       end, d)
  end.
Proof.
  unfold get_twin, get_twin_try, read_ops, select_twin.
  run_handler. split_faults w.
Qed.

Lemma get_report_outcome (w : world) (uid : string) (d : DB) :
  get_report w uid d =
  match first_fault w read_ops with
  | Some (_, msg) => (Error msg, d)
  | None =>
      (match digital_twins d !! uid with
       | None => UserNotFound
       | Some r =>
           let th := or_else (thresholds r) ∅ in
           let ag := or_else (aggregates r) ∅ in
           Report uid
             (get ag "today_minutes" 0)
             (get ag "weekly_minutes" 0)
             (get ag "night_minutes" 0)
             (state r)
             (get th "daily" 120)
             (get th "night" 60)
       end, d)
  end.
Proof.
  unfold get_report, get_report_try, read_ops, select_twin.
  run_handler. split_faults w.
Qed.

Lemma update_threshold_outcome (w : world) (uid : string)
    (body : ThresholdUpdate) (d : DB) :
  first_fault w threshold_ops = None ->
  update_threshold sc w uid body d =
  let th := merge_thresholds body (prior_thresholds d uid) in
  (ThresholdsSet uid th,
   update_twin (set_thresholds (db_clock w) th) uid
     (insert_twin sc (db_clock w) uid d)).
Proof.
  intros Hok. no_faults Hok.
  unfold update_threshold, update_threshold_try, prior_thresholds,
    select_twin, insert_twin.
  run_handler. calls_ok.
  destruct (digital_twins d !! uid) as [r|] eqn:Hrow; calls_ok; simpl;
    rewrite ?Hrow; reflexivity.
Qed.

End HandlerFacts.


(** ** The increment on one [aggregates] object *)

Section IncrementFacts.

Ltac lookups :=
  unfold get; rewrite ?lookup_insert, ?lookup_empty;
  repeat case_decide; try done.

Lemma get_zero_aggregates (k : string) : get zero_aggregates k 0 = 0.
Proof. unfold zero_aggregates. lookups. Qed.

Lemma get_empty (k : string) (v : Z) : get ∅ k v = v.
Proof. unfold get. by rewrite lookup_empty. Qed.

(** The engine's fallback object and the readers' agree on every key. *)
Lemma get_or_zero (a : option dict) (k : string) :
  get (or_else a zero_aggregates) k 0 = counter k a.
Proof.
  unfold counter, or_else.
  destruct a as [m|]; [destruct (truthy (Some m))|]; try reflexivity;
    by rewrite get_zero_aggregates, get_empty.
Qed.

Lemma truthy_insert (k : string) (v : Z) (m : dict) :
  truthy (Some (<[k := v]> m)) = true.
Proof.
  unfold truthy. rewrite bool_decide_eq_false_2; [done|].
  apply insert_non_empty.
Qed.

Lemma counter_insert (k j : string) (v : Z) (m : dict) :
  counter j (Some (<[k := v]> m)) = if decide (k = j) then v else get m j 0.
Proof.
  unfold counter, or_else. rewrite truthy_insert.
  unfold get. rewrite lookup_insert. by case_decide.
Qed.

Variables (now : Clock.time) (dur : Z) (a : option dict).

Ltac open_increment :=
  destruct a; unfold apply_duration;
  cbn [new_today new_weekly new_state new_aggregates].

Lemma new_today_spec :
  new_today (apply_duration now dur (Some a)) =
  counter "today_minutes" a + dur.
Proof. open_increment; by rewrite get_or_zero. Qed.

Lemma new_weekly_spec :
  new_weekly (apply_duration now dur (Some a)) =
  counter "weekly_minutes" a + dur.
Proof. open_increment; rewrite <- get_or_zero; lookups. Qed.

Lemma new_state_spec :
  new_state (apply_duration now dur (Some a)) =
  classify (counter "today_minutes" a + dur).
Proof. open_increment; by rewrite get_or_zero. Qed.

Lemma stored_today :
  counter "today_minutes"
    (Some (new_aggregates (apply_duration now dur (Some a)))) =
  new_today (apply_duration now dur (Some a)).
Proof.
  open_increment; destruct (Clock.is_night now); rewrite !counter_insert;
    repeat case_decide; try done; lookups.
Qed.

Lemma stored_weekly :
  counter "weekly_minutes"
    (Some (new_aggregates (apply_duration now dur (Some a)))) =
  new_weekly (apply_duration now dur (Some a)).
Proof.
  open_increment; destruct (Clock.is_night now); rewrite !counter_insert;
    repeat case_decide; try done; lookups.
Qed.

Lemma stored_night :
  counter "night_minutes"
    (Some (new_aggregates (apply_duration now dur (Some a)))) =
  if Clock.is_night now
  then counter "night_minutes" a + dur
  else counter "night_minutes" a.
Proof.
  open_increment; destruct (Clock.is_night now); rewrite !counter_insert;
    repeat case_decide; try done; rewrite <- get_or_zero; lookups.
Qed.

End IncrementFacts.

(** ** One committed event on the store *)

Section StoreFacts.

Variable sc : schema.

Lemma lookup_insert_twin (t : Z) (uid uid' : string) (d : DB) :
  digital_twins (insert_twin sc t uid d) !! uid' =
  match digital_twins d !! uid' with
  | Some r => Some r
  | None => if decide (uid = uid') then Some (blank_twin sc t) else None
  end.
Proof.
  unfold insert_twin.
  destruct (digital_twins d !! uid) as [r|] eqn:Hrow; simpl.
  - destruct (digital_twins d !! uid') eqn:Hrow'; [done|].
    case_decide; [congruence | done].
  - rewrite lookup_insert. case_decide.
    + subst uid'. by rewrite Hrow.
    + by destruct (digital_twins d !! uid').
Qed.

(** The row the [SELECT] of [ingest_event] fetches always exists. *)
Lemma select_after_insert (t : Z) (e : GamingEvent) (d : DB) :
  aggregates <$>
    select_twin (user_id e) (insert_twin sc t (user_id e) (insert_event e d))
  = Some (loaded_aggregates sc d (user_id e)).
Proof.
  unfold select_twin, loaded_aggregates.
  rewrite lookup_insert_twin. simpl.
  destruct (digital_twins d !! user_id e); [done|].
  by rewrite decide_True.
Qed.

Lemma persist_event_lookup now t e d uid :
  digital_twins (persist_event sc now t e d) !! uid =
  if decide (user_id e = uid)
  then
    let r := default (blank_twin sc t) (digital_twins d !! uid) in
    let u := apply_duration now (duration e) (Some (aggregates r)) in
    Some (set_aggregates t (new_aggregates u) (new_state u) r)
  else digital_twins d !! uid.
Proof.
  unfold persist_event. rewrite select_after_insert.
  unfold update_twin; simpl. rewrite lookup_alter, lookup_insert_twin; simpl.
  case_decide as Hu.
  - subst uid. unfold loaded_aggregates.
    destruct (digital_twins d !! user_id e); simpl; [done|].
    by rewrite decide_True.
  - rewrite lookup_insert_twin; simpl.
    rewrite (decide_False _ _ Hu). by destruct (digital_twins d !! uid).
Qed.

Lemma persist_event_loaded now t e d uid :
  loaded_aggregates sc (persist_event sc now t e d) uid =
  if decide (user_id e = uid)
  then Some (new_aggregates
               (apply_duration now (duration e)
                  (Some (loaded_aggregates sc d uid))))
  else loaded_aggregates sc d uid.
Proof.
  unfold loaded_aggregates at 1. rewrite persist_event_lookup.
  case_decide; [|done]. simpl. unfold loaded_aggregates.
  by destruct (digital_twins d !! uid).
Qed.

Lemma persist_event_today now t e d uid :
  today_minutes_of sc (persist_event sc now t e d) uid =
  today_minutes_of sc d uid + (if decide (user_id e = uid) then duration e else 0).
Proof.
  unfold today_minutes_of. rewrite persist_event_loaded.
  case_decide; [|lia]. by rewrite stored_today, new_today_spec.
Qed.

Lemma persist_event_weekly now t e d uid :
  weekly_minutes_of sc (persist_event sc now t e d) uid =
  weekly_minutes_of sc d uid + (if decide (user_id e = uid) then duration e else 0).
Proof.
  unfold weekly_minutes_of. rewrite persist_event_loaded.
  case_decide; [|lia]. by rewrite stored_weekly, new_weekly_spec.
Qed.

Lemma persist_event_night now t e d uid :
  night_minutes_of sc (persist_event sc now t e d) uid =
  night_minutes_of sc d uid +
  (if decide (user_id e = uid)
   then if Clock.is_night now then duration e else 0
   else 0).
Proof.
  unfold night_minutes_of. rewrite persist_event_loaded.
  case_decide; [|lia]. rewrite stored_night.
  destruct (Clock.is_night now); lia.
Qed.

(** The store after a call: untouched unless every call up to the commit
    went through. *)
Lemma ingest_event_store (w : world) (e : GamingEvent) (d : DB) :
  snd (ingest_event sc w e d) =
  match first_fault w ingest_ops with
  | Some _ => d
  | None => persist_event sc (wall_clock w) (db_clock w) e d
  end.
Proof.
  rewrite ingest_event_outcome.
  destruct (first_fault w ingest_ops) as [[o msg]|]; [done|].
  cbv zeta. by destruct (first_fault w release_ops) as [[o msg]|].
Qed.

Lemma run_events_cons c calls d :
  run_events sc (c :: calls) d =
  run_events sc calls (snd (ingest_event sc (fst c) (snd c) d)).
Proof. reflexivity. Qed.

Lemma run_events_app calls1 calls2 d :
  run_events sc (calls1 ++ calls2) d =
  run_events sc calls2 (run_events sc calls1 d).
Proof. unfold run_events. apply fold_left_app. Qed.

(** Sequential additivity, from any starting store and for any mix of
    users: the calls that reach their commit add up. *)
Lemma run_events_today calls d uid :
  Forall (fun c => first_fault (fst c) ingest_ops = None) calls ->
  today_minutes_of sc (run_events sc calls d) uid =
  today_minutes_of sc d uid + minutes_for uid (map snd calls).
Proof.
  intros Hok. revert d.
  induction Hok as [|[w e] calls Hc _ IH]; intros d.
  - unfold run_events; simpl. lia.
  - rewrite run_events_cons, IH. cbn [map minutes_for fst snd] in *.
    rewrite ingest_event_store, Hc, persist_event_today.
    destruct (decide (user_id e = uid)) as [Hu|Hu].
    + rewrite bool_decide_eq_true_2 by done. lia.
    + rewrite bool_decide_eq_false_2 by done. lia.
Qed.

Lemma run_events_weekly calls d uid :
  Forall (fun c => first_fault (fst c) ingest_ops = None) calls ->
  weekly_minutes_of sc (run_events sc calls d) uid =
  weekly_minutes_of sc d uid + minutes_for uid (map snd calls).
Proof.
  intros Hok. revert d.
  induction Hok as [|[w e] calls Hc _ IH]; intros d.
  - unfold run_events; simpl. lia.
  - rewrite run_events_cons, IH. cbn [map minutes_for fst snd] in *.
    rewrite ingest_event_store, Hc, persist_event_weekly.
    destruct (decide (user_id e = uid)) as [Hu|Hu].
    + rewrite bool_decide_eq_true_2 by done. lia.
    + rewrite bool_decide_eq_false_2 by done. lia.
Qed.

End StoreFacts.

(** ** Counters across one call and across a run *)

Section CounterFacts.

Variable sc : schema.

Lemma ingest_event_today w e d uid :
  today_minutes_of sc (snd (ingest_event sc w e d)) uid =
  today_minutes_of sc d uid + added w e uid (duration e).
Proof.
  rewrite ingest_event_store. unfold added.
  destruct (first_fault w ingest_ops); [lia|]. apply persist_event_today.
Qed.

Lemma ingest_event_weekly w e d uid :
  weekly_minutes_of sc (snd (ingest_event sc w e d)) uid =
  weekly_minutes_of sc d uid + added w e uid (duration e).
Proof.
  rewrite ingest_event_store. unfold added.
  destruct (first_fault w ingest_ops); [lia|]. apply persist_event_weekly.
Qed.

Lemma ingest_event_night w e d uid :
  night_minutes_of sc (snd (ingest_event sc w e d)) uid =
  night_minutes_of sc d uid +
  added w e uid (if Clock.is_night (wall_clock w) then duration e else 0).
Proof.
  rewrite ingest_event_store. unfold added.
  destruct (first_fault w ingest_ops); [lia|]. apply persist_event_night.
Qed.

Lemma added_bounds w e uid x : 0 <= x -> 0 <= added w e uid x <= x.
Proof.
  intros Hx. unfold added.
  destruct (first_fault w ingest_ops); [lia|]. case_decide; lia.
Qed.

Lemma added_night_le w e uid :
  0 <= duration e ->
  0 <= added w e uid (if Clock.is_night (wall_clock w) then duration e else 0)
    <= added w e uid (duration e).
Proof.
  intros Hd. unfold added.
  destruct (first_fault w ingest_ops); [lia|].
  case_decide; destruct (Clock.is_night (wall_clock w)); lia.
Qed.

Lemma minutes_for_same uid evs :
  Forall (fun e => user_id e = uid) evs ->
  minutes_for uid evs = total_duration evs.
Proof.
  induction 1 as [|e evs He _ IH]; simpl; [done|].
  rewrite bool_decide_eq_true_2 by done. lia.
Qed.

Lemma balanced_step w e d uid :
  0 <= duration e ->
  balanced sc d uid -> balanced sc (snd (ingest_event sc w e d)) uid.
Proof.
  intros Hd [Heq Hle]. unfold balanced.
  rewrite ingest_event_today, ingest_event_weekly, ingest_event_night.
  pose proof (added_night_le w e uid Hd). lia.
Qed.

Lemma balanced_run calls d uid :
  Forall (fun c => 0 <= duration (snd c)) calls ->
  balanced sc d uid -> balanced sc (run_events sc calls d) uid.
Proof.
  intros Hpos. revert d.
  induction Hpos as [|c calls Hc _ IH]; intros d Hb; [done|].
  rewrite run_events_cons. apply IH. by apply balanced_step.
Qed.

End CounterFacts.

(** * The claims *)

Lemma loaded_set_thresholds sc t th uid uid' d :
  loaded_aggregates sc (update_twin (set_thresholds t th) uid d) uid' =
  loaded_aggregates sc d uid'.
Proof.
  unfold loaded_aggregates, update_twin; simpl. rewrite lookup_alter.
  case_decide; [subst uid'|done]. by destruct (digital_twins d !! uid).
Qed.

Lemma persist_event_state sc now t e d :
  state <$> (digital_twins (persist_event sc now t e d) !! user_id e) =
  Some (Some (classify (today_minutes_of sc d (user_id e) + duration e))).
Proof.
  rewrite persist_event_lookup, decide_True by done.
  cbn [fmap option_fmap option_map set_aggregates state].
  rewrite new_state_spec. unfold today_minutes_of, loaded_aggregates.
  by destruct (digital_twins d !! user_id e).
Qed.

(** C3. The state classifier maps [today_minutes] to Excessive exactly
    above 120, to Moderate exactly in (60, 120], and to Healthy exactly up
    to 60; so 60 is Healthy, 61 and 120 are Moderate, 121 is Excessive.
    The cutoffs are fixed: the state an event stores is the classifier's
    value at the new [today_minutes], whatever thresholds the twin holds. *)
Theorem classify_fixed_cutoffs :
  (forall m : Z,
     (classify m = Excessive <-> 120 < m) /\
     (classify m = Moderate <-> 60 < m <= 120) /\
     (classify m = Healthy <-> m <= 60)) /\
  (classify 60 = Healthy /\ classify 61 = Moderate /\
   classify 120 = Moderate /\ classify 121 = Excessive) /\
  (forall now dur row,
     new_state (apply_duration now dur row) =
     classify (new_today (apply_duration now dur row))) /\
  (forall sc now t e d,
     state <$> (digital_twins (persist_event sc now t e d) !! user_id e) =
     Some (Some (classify (today_minutes_of sc d (user_id e) + duration e)))) /\
  (forall sc now t e d t' th,
     state <$> (digital_twins
                  (persist_event sc now t e
                     (update_twin (set_thresholds t' th) (user_id e) d))
                !! user_id e) =
     state <$> (digital_twins (persist_event sc now t e d) !! user_id e)).
Proof.
  split; [|split; [|split; [|split]]].
  - intros m. unfold classify.
    destruct (Z.ltb_spec 120 m); [|destruct (Z.ltb_spec 60 m)];
      repeat split; intros; try lia; try done.
  - by vm_compute.
  - reflexivity.
  - apply persist_event_state.
  - intros. rewrite !persist_event_state.
    unfold today_minutes_of. by rewrite loaded_set_thresholds.
Qed.

(** C4. An event that is committed adds its duration to [today_minutes]
    and [weekly_minutes] whatever the time, and to [night_minutes] exactly
    when the wall clock read while the event is processed is at or after
    22:00 or at or before 06:00, both ends included; the event itself
    carries no time. *)
Theorem night_window_attribution sc w e d :
  Clock.valid (wall_clock w) ->
  first_fault w ingest_ops = None ->
  let d' := snd (ingest_event sc w e d) in
  let uid := user_id e in
  let t := Clock.since_midnight (wall_clock w) in
  let in_window :=
    Clock.since_midnight (Clock.hm 22 0) <= t \/
    t <= Clock.since_midnight (Clock.hm 6 0) in
  today_minutes_of sc d' uid = today_minutes_of sc d uid + duration e /\
  weekly_minutes_of sc d' uid = weekly_minutes_of sc d uid + duration e /\
  (in_window ->
   night_minutes_of sc d' uid = night_minutes_of sc d uid + duration e) /\
  (~ in_window -> night_minutes_of sc d' uid = night_minutes_of sc d uid) /\
  (duration e <> 0 ->
   (night_minutes_of sc d' uid = night_minutes_of sc d uid + duration e
    <-> in_window)) /\
  Clock.is_night (Clock.Time 6 0 0 0) = true /\
  Clock.is_night (Clock.Time 6 0 0 1) = false /\
  Clock.is_night (Clock.Time 21 59 59 999999) = false /\
  Clock.is_night (Clock.Time 22 0 0 0) = true.
Proof.
  intros Hv Hok d' uid t in_window.
  pose proof (ClockFacts.is_night_window (wall_clock w) Hv) as Hwin.
  fold t in Hwin. fold in_window in Hwin.
  subst d' uid.
  rewrite ingest_event_today, ingest_event_weekly, ingest_event_night.
  unfold added. rewrite Hok, !decide_True by done.
  destruct (Clock.is_night (wall_clock w)).
  - assert (in_window) by (by apply Hwin).
    repeat split; try done; try lia.
  - assert (~ in_window) by (intros Hin; apply Hwin in Hin; done).
    repeat split; try done; try lia.
Qed.

Lemma night_window_attribution_witness :
  let w := quiet (Clock.Time 5 30 0 0) 1 in
  let e := play "ana" 45 in
  Clock.valid (wall_clock w) /\
  first_fault w ingest_ops = None /\
  night_minutes_of null_schema (snd (ingest_event null_schema w e empty_db)) "ana"
  = night_minutes_of null_schema empty_db "ana" + 45.
Proof.
  intros w e.
  assert (Hv : Clock.valid (wall_clock w)) by (vm_compute; intuition discriminate).
  assert (Hok : first_fault w ingest_ops = None) by reflexivity.
  split; [exact Hv|]. split; [exact Hok|].
  destruct (night_window_attribution null_schema w e empty_db Hv Hok)
    as (_ & _ & Hnight & _).
  apply Hnight. right. vm_compute. discriminate.
Defined.

(** C2. Events for one user with durations d1..dN, applied one after the
    other from a twin whose aggregates read zero, leave [today_minutes]
    and [weekly_minutes] both equal to d1 + ... + dN. *)
Theorem sequential_additivity sc (calls : list (world * GamingEvent)) d uid :
  Forall (fun c => user_id (snd c) = uid) calls ->
  Forall (fun c => first_fault (fst c) ingest_ops = None) calls ->
  zeroed sc d uid ->
  today_minutes_of sc (run_events sc calls d) uid
    = total_duration (map snd calls) /\
  weekly_minutes_of sc (run_events sc calls d) uid
    = total_duration (map snd calls).
Proof.
  intros Hu Hok (Ht & Hw & _).
  rewrite run_events_today, run_events_weekly by done.
  rewrite minutes_for_same by (by apply Forall_map).
  lia.
Qed.

Lemma sequential_additivity_witness :
  let calls :=
    [(quiet (Clock.hm 12 0) 1, play "ana" 30);
     (quiet (Clock.hm 23 0) 2, play "ana" 45);
     (quiet (Clock.hm 5 30) 3, play "ana" 50)] in
  Forall (fun c => user_id (snd c) = "ana") calls /\
  Forall (fun c => first_fault (fst c) ingest_ops = None) calls /\
  zeroed null_schema empty_db "ana" /\
  today_minutes_of null_schema (run_events null_schema calls empty_db) "ana"
    = 125 /\
  weekly_minutes_of null_schema (run_events null_schema calls empty_db) "ana"
    = 125.
Proof.
  intros calls.
  assert (Hu : Forall (fun c => user_id (snd c) = "ana") calls)
    by (repeat constructor).
  assert (Hok : Forall (fun c => first_fault (fst c) ingest_ops = None) calls)
    by (repeat constructor).
  assert (Hz : zeroed null_schema empty_db "ana")
    by (repeat split; reflexivity).
  split; [exact Hu|]. split; [exact Hok|]. split; [exact Hz|].
  exact (sequential_additivity null_schema calls empty_db "ana" Hu Hok Hz).
Defined.

(** C8. An event whose duration is not negative leaves each of
    [today_minutes], [weekly_minutes] and [night_minutes], of every user,
    at least as large as it was, whether or not the call succeeds. *)
Theorem counters_monotone sc w e d uid :
  0 <= duration e ->
  let d' := snd (ingest_event sc w e d) in
  today_minutes_of sc d uid <= today_minutes_of sc d' uid /\
  weekly_minutes_of sc d uid <= weekly_minutes_of sc d' uid /\
  night_minutes_of sc d uid <= night_minutes_of sc d' uid.
Proof.
  intros Hd d'. subst d'.
  rewrite ingest_event_today, ingest_event_weekly, ingest_event_night.
  pose proof (added_bounds w e uid (duration e) Hd).
  pose proof (added_night_le w e uid Hd).
  lia.
Qed.

Lemma counters_monotone_witness :
  let w := quiet (Clock.hm 23 0) 1 in
  let d := snd (ingest_event null_schema w (play "ana" 30) empty_db) in
  let d' := snd (ingest_event null_schema w (play "ana" 0) d) in
  0 <= duration (play "ana" 0) /\
  today_minutes_of null_schema d "ana" <= today_minutes_of null_schema d' "ana" /\
  weekly_minutes_of null_schema d "ana" <= weekly_minutes_of null_schema d' "ana" /\
  night_minutes_of null_schema d "ana" <= night_minutes_of null_schema d' "ana".
Proof.
  intros w d d'.
  assert (Hd : 0 <= duration (play "ana" 0)) by (simpl; lia).
  split; [exact Hd|].
  exact (counters_monotone null_schema w (play "ana" 0) d "ana" Hd).
Defined.

(** C10. On a twin whose aggregates start at zero and change only through
    sequential [ingest_event] calls with durations that are not negative,
    [today_minutes] equals [weekly_minutes] and [night_minutes] is at most
    [today_minutes], after every call, failed calls included. *)
Theorem today_weekly_night_invariant sc (calls : list (world * GamingEvent)) d uid :
  Forall (fun c => 0 <= duration (snd c)) calls ->
  zeroed sc d uid ->
  forall k : nat,
    let d' := run_events sc (take k calls) d in
    today_minutes_of sc d' uid = weekly_minutes_of sc d' uid /\
    night_minutes_of sc d' uid <= today_minutes_of sc d' uid.
Proof.
  intros Hpos (Ht & Hw & Hn) k d'.
  assert (Hb : balanced sc d' uid).
  { apply balanced_run.
    - by apply Forall_take.
    - unfold balanced. lia. }
  destruct Hb as [Heq Hle]. split; [exact Heq | lia].
Qed.

Lemma today_weekly_night_invariant_witness :
  let calls :=
    [(quiet (Clock.hm 12 0) 1, play "ana" 30);
     (failing (Clock.hm 23 0) 2 Update "connection lost", play "ana" 45);
     (quiet (Clock.hm 23 30) 3, play "ana" 50);
     (quiet (Clock.hm 23 40) 4, play "bob" 10)] in
  Forall (fun c => 0 <= duration (snd c)) calls /\
  zeroed null_schema empty_db "ana" /\
  let d' := run_events null_schema (take 4 calls) empty_db in
  today_minutes_of null_schema d' "ana" = weekly_minutes_of null_schema d' "ana" /\
  night_minutes_of null_schema d' "ana" <= today_minutes_of null_schema d' "ana".
Proof.
  intros calls.
  assert (Hpos : Forall (fun c => 0 <= duration (snd c)) calls)
    by (repeat constructor; simpl; lia).
  assert (Hz : zeroed null_schema empty_db "ana")
    by (repeat split; reflexivity).
  split; [exact Hpos|]. split; [exact Hz|].
  exact (today_weekly_night_invariant null_schema calls empty_db "ana" Hpos Hz 4%nat).
Defined.

(** C5. When a call of [ingest_event] that reaches the store raises
    (connect, one of the four statements, or the commit), nothing of the
    operation is committed: the store, and with it the user's twin, is
    what it was; the caller gets the flat envelope with status "error" and
    the exception's message; and the handler stops at the failing call,
    having issued each call once.  In every world the store after the call
    is either the old one or the one with aggregates and state written
    together. *)
Theorem persistence_failure_aborts sc w e d o msg :
  first_fault w ingest_ops = Some (o, msg) ->
  let s := snd (handle (ingest_event_try sc w e) d) in
  ingest_event sc w e d = (Error msg, d) /\
  committed s = d /\
  persistence_step o = true /\
  trace s = until_fault w ingest_ops /\
  last (trace s) = Some o /\
  NoDup (trace s) /\
  (forall w',
     snd (ingest_event sc w' e d) = d \/
     snd (ingest_event sc w' e d) =
       persist_event sc (wall_clock w') (db_clock w') e d).
Proof.
  intros Hfail s. subst s.
  rewrite ingest_event_committed, ingest_event_trace, ingest_event_store,
    ingest_event_outcome, Hfail.
  split; [done|]. split; [done|].
  assert (Hshape :
    persistence_step o = true /\
    until_fault w (ingest_ops ++ release_ops) = until_fault w ingest_ops /\
    last (until_fault w ingest_ops) = Some o /\
    NoDup (until_fault w ingest_ops)).
  { unfold ingest_ops, release_ops in *.
    cbn [first_fault until_fault app] in *.
    repeat match type of Hfail with
           | context [fault w ?c] => destruct (fault w c) eqn:?
           end;
      simplify_eq; repeat split; try reflexivity;
      apply (bool_decide_unpack _); by vm_compute. }
  destruct Hshape as (Hp & -> & Hlast & Hnd).
  repeat split; try done.
  intros w'. rewrite ingest_event_store.
  destruct (first_fault w' ingest_ops); [by left | by right].
Qed.

Lemma persistence_failure_aborts_witness :
  let w := failing (Clock.hm 23 0) 2 Update "connection lost" in
  let d := snd (ingest_event null_schema (quiet (Clock.hm 12 0) 1)
                  (play "ana" 30) empty_db) in
  first_fault w ingest_ops = Some (Update, "connection lost") /\
  ingest_event null_schema w (play "ana" 45) d = (Error "connection lost", d).
Proof.
  intros w d.
  assert (Hfail : first_fault w ingest_ops = Some (Update, "connection lost"))
    by reflexivity.
  split; [exact Hfail|].
  exact (proj1 (persistence_failure_aborts null_schema w (play "ana" 45) d
                  Update "connection lost" Hfail)).
Defined.

Lemma lookup_merge_thresholds body (th : dict) (k : string) :
  merge_thresholds body th !! k =
  if decide (k = "night") then
    match night body with Some v => Some v | None => th !! k end
  else if decide (k = "daily") then
    match daily body with Some v => Some v | None => th !! k end
  else th !! k.
Proof.
  unfold merge_thresholds.
  destruct (night body), (daily body); rewrite ?lookup_insert;
    repeat case_decide; by simplify_eq.
Qed.

(** C6. [update_threshold] assigns only the supplied fields over the
    thresholds the user has (the stored object, or [{daily:120, night:60}]
    when the row is missing or holds none), every other key keeping its
    prior value; it creates the row when absent, stores the merged object
    in the user's row without touching its aggregates or any other row,
    and returns the merged object. *)
Theorem threshold_partial_update sc w uid body d :
  first_fault w threshold_ops = None ->
  let prior := prior_thresholds d uid in
  let th := merge_thresholds body prior in
  let d' := snd (update_threshold sc w uid body d) in
  fst (update_threshold sc w uid body d) = ThresholdsSet uid th /\
  th !! "daily" = match daily body with
                  | Some v => Some v
                  | None => prior !! "daily"
                  end /\
  th !! "night" = match night body with
                  | Some v => Some v
                  | None => prior !! "night"
                  end /\
  (forall k, k <> "daily" -> k <> "night" -> th !! k = prior !! k) /\
  (forall r m, digital_twins d !! uid = Some r -> thresholds r = Some m ->
               m <> ∅ -> prior = m) /\
  (exists r, digital_twins d' !! uid = Some r /\
             thresholds r = Some th /\
             aggregates r = loaded_aggregates sc d uid) /\
  (forall uid', uid' <> uid ->
                digital_twins d' !! uid' = digital_twins d !! uid').
Proof.
  intros Hok prior th d'. subst d'.
  rewrite (update_threshold_outcome sc w uid body d Hok).
  cbv zeta. cbn [fst snd]. fold prior. fold th.
  split; [done|].
  split; [subst th; by rewrite lookup_merge_thresholds|].
  split; [subst th; by rewrite lookup_merge_thresholds|].
  split.
  { intros k Hd Hn. subst th. rewrite lookup_merge_thresholds.
    by rewrite !decide_False. }
  split.
  { intros r m Hrow Hth Hne. subst prior. unfold prior_thresholds.
    rewrite Hrow, Hth. unfold or_else, truthy.
    by rewrite bool_decide_eq_false_2. }
  split.
  - unfold update_twin; simpl. rewrite lookup_alter_eq, lookup_insert_twin.
    unfold loaded_aggregates.
    destruct (digital_twins d !! uid) as [r|]; simpl.
    + by eexists.
    + rewrite decide_True by done. by eexists.
  - intros uid' Hne. unfold update_twin; simpl.
    rewrite lookup_alter_ne, lookup_insert_twin by done.
    destruct (digital_twins d !! uid'); [done|]. by rewrite decide_False.
Qed.

Lemma threshold_partial_update_witness :
  let w := quiet (Clock.hm 12 0) 5 in
  let d := snd (update_threshold null_schema w "ana"
                  {| daily := Some 150; night := Some 50 |} empty_db) in
  first_fault w threshold_ops = None /\
  prior_thresholds d "ana" = <["daily" := 150]> (<["night" := 50]> ∅) /\
  fst (update_threshold null_schema w "ana"
         {| daily := None; night := Some 40 |} d)
  = ThresholdsSet "ana" (<["daily" := 150]> (<["night" := 40]> ∅)).
Proof.
  intros w d.
  assert (Hok : first_fault w threshold_ops = None) by reflexivity.
  split; [exact Hok|]. split; [by vm_compute|].
  exact (proj1 (threshold_partial_update null_schema w "ana"
                  {| daily := None; night := Some 40 |} d Hok)).
Defined.

Lemma insert_twin_idempotent sc t t' uid d :
  insert_twin sc t' uid (insert_twin sc t uid d) = insert_twin sc t uid d.
Proof.
  unfold insert_twin at 1. rewrite lookup_insert_twin.
  destruct (digital_twins d !! uid); [done|]. by rewrite decide_True.
Qed.

Lemma dom_insert_twin_new sc t uid d :
  digital_twins d !! uid = None ->
  dom (digital_twins (insert_twin sc t uid d)) = {[uid]} ∪ dom (digital_twins d).
Proof.
  intros Hnew. unfold insert_twin. rewrite Hnew. simpl. apply dom_insert_L.
Qed.

(** C7. With the column defaults the spec gives a new row, a user never
    seen before gets exactly one row from either [ingest_event] or
    [update_threshold]: the row is created holding thresholds
    [{daily:120, night:60}] and all-zero aggregates, the event or the
    update is then applied to it, no other row appears or changes, and a
    second creation attempt changes nothing. *)
Theorem twin_created_once st ts w e body d uid :
  let sc := spec_schema st ts in
  digital_twins d !! uid = None ->
  user_id e = uid ->
  first_fault w ingest_ops = None ->
  first_fault w threshold_ops = None ->
  let t := db_clock w in
  let created := insert_twin sc t uid d in
  let d1 := snd (ingest_event sc w e d) in
  let d2 := snd (update_threshold sc w uid body d) in
  let u := apply_duration (wall_clock w) (duration e)
             (Some (Some zero_aggregates)) in
  (digital_twins created !! uid =
     Some {| thresholds := Some default_thresholds;
             aggregates := Some zero_aggregates;
             state := st;
             updated_at := ts t |} /\
   dom (digital_twins created) = {[uid]} ∪ dom (digital_twins d) /\
   (forall t', insert_twin sc t' uid created = created)) /\
  (digital_twins d1 !! uid =
     Some {| thresholds := Some default_thresholds;
             aggregates := Some (new_aggregates u);
             state := Some (new_state u);
             updated_at := Some t |} /\
   new_today u = duration e /\
   dom (digital_twins d1) = {[uid]} ∪ dom (digital_twins d) /\
   (forall uid', uid' <> uid ->
                 digital_twins d1 !! uid' = digital_twins d !! uid')) /\
  (digital_twins d2 !! uid =
     Some {| thresholds := Some (merge_thresholds body default_thresholds);
             aggregates := Some zero_aggregates;
             state := st;
             updated_at := Some t |} /\
   dom (digital_twins d2) = {[uid]} ∪ dom (digital_twins d) /\
   (forall uid', uid' <> uid ->
                 digital_twins d2 !! uid' = digital_twins d !! uid')).
Proof.
  intros sc Hnew Hu Hing Hthr t created d1 d2 u.
  subst created d1 d2 uid.
  rewrite ingest_event_store, Hing.
  rewrite (update_threshold_outcome sc w (user_id e) body d Hthr).
  cbv zeta. cbn [snd].
  split; [|split].
  - split; [|split].
    + rewrite lookup_insert_twin, Hnew. by rewrite decide_True.
    + by apply dom_insert_twin_new.
    + intros t'. apply insert_twin_idempotent.
  - split; [|split; [|split]].
    + rewrite persist_event_lookup, decide_True, Hnew by done. reflexivity.
    + reflexivity.
    + unfold persist_event, update_twin; simpl. rewrite dom_alter_L.
      exact (dom_insert_twin_new sc t (user_id e) (insert_event e d) Hnew).
    + intros uid' Hne. rewrite persist_event_lookup. by rewrite decide_False.
  - split; [|split].
    + unfold update_twin; simpl.
      rewrite lookup_alter_eq, lookup_insert_twin, Hnew.
      rewrite decide_True by done. unfold prior_thresholds. by rewrite Hnew.
    + unfold update_twin; simpl.
      rewrite dom_alter_L. by apply dom_insert_twin_new.
    + intros uid' Hne. unfold update_twin; simpl.
      rewrite lookup_alter_ne, lookup_insert_twin by done.
      destruct (digital_twins d !! uid'); [done|]. by rewrite decide_False.
Qed.

Lemma twin_created_once_witness :
  let w := quiet (Clock.hm 12 0) 9 in
  let sc := spec_schema None (fun t => Some t) in
  digital_twins empty_db !! "ana" = None /\
  user_id (play "ana" 30) = "ana" /\
  first_fault w ingest_ops = None /\
  first_fault w threshold_ops = None /\
  dom (digital_twins (snd (ingest_event sc w (play "ana" 30) empty_db)))
    = {["ana"]} ∪ dom (digital_twins empty_db) /\
  dom (digital_twins
         (snd (update_threshold sc w "ana"
                 {| daily := None; night := Some 40 |} empty_db)))
    = {["ana"]} ∪ dom (digital_twins empty_db).
Proof.
  intros w sc.
  assert (Hnew : digital_twins empty_db !! "ana" = None) by reflexivity.
  assert (Hu : user_id (play "ana" 30) = "ana") by reflexivity.
  assert (Hing : first_fault w ingest_ops = None) by reflexivity.
  assert (Hthr : first_fault w threshold_ops = None) by reflexivity.
  split; [exact Hnew|]. split; [exact Hu|].
  split; [exact Hing|]. split; [exact Hthr|].
  destruct (twin_created_once None (fun t => Some t) w (play "ana" 30)
              {| daily := None; night := Some 40 |} empty_db "ana"
              Hnew Hu Hing Hthr)
    as (_ & (_ & _ & Hd1 & _) & (_ & Hd2 & _)).
  split; [exact Hd1 | exact Hd2].
Defined.

(** C9. For a user without a twin row both read handlers answer with the
    not-found object and change nothing; when a call to the store raises
    they answer with the error envelope instead, so a response is always
    produced.  For a user whose row holds no thresholds (null or an empty
    object) the report carries [daily_threshold = 120] and
    [night_threshold = 60]. *)
Theorem reads_without_data w uid d :
  first_fault w read_ops = None ->
  (digital_twins d !! uid = None ->
   get_twin w uid d = (UserNotFound, d) /\
   get_report w uid d = (UserNotFound, d)) /\
  (forall w', digital_twins d !! uid = None ->
     (get_twin w' uid d = (UserNotFound, d) \/
      exists msg, get_twin w' uid d = (Error msg, d)) /\
     (get_report w' uid d = (UserNotFound, d) \/
      exists msg, get_report w' uid d = (Error msg, d))) /\
  (forall r, digital_twins d !! uid = Some r ->
     truthy (thresholds r) = false ->
     get_report w uid d =
       (Report uid (counter "today_minutes" (aggregates r))
                   (counter "weekly_minutes" (aggregates r))
                   (counter "night_minutes" (aggregates r))
                   (state r) 120 60, d)).
Proof.
  intros Hok. split; [|split].
  - intros Hnone. by rewrite get_twin_outcome, get_report_outcome, Hok, Hnone.
  - intros w' Hnone. rewrite get_twin_outcome, get_report_outcome, Hnone.
    destruct (first_fault w' read_ops) as [[o msg]|]; split; eauto.
  - intros r Hrow Hunset. rewrite get_report_outcome, Hok, Hrow.
    cbv zeta. unfold counter.
    assert (Hth : or_else (thresholds r) ∅ = ∅).
    { unfold or_else. destruct (thresholds r); [|done]. by rewrite Hunset. }
    by rewrite Hth, !get_empty.
Qed.

Lemma reads_without_data_witness :
  let w := quiet (Clock.hm 12 0) 9 in
  let d := snd (ingest_event null_schema w (play "ana" 30) empty_db) in
  first_fault w read_ops = None /\
  digital_twins d !! "bob" = None /\
  get_twin w "bob" d = (UserNotFound, d) /\
  get_report w "bob" d = (UserNotFound, d) /\
  get_report w "ana" d = (Report "ana" 30 30 0 (Some Healthy) 120 60, d).
Proof.
  intros w d.
  assert (Hok : first_fault w read_ops = None) by reflexivity.
  assert (Hnone : digital_twins d !! "bob" = None) by (by vm_compute).
  split; [exact Hok|]. split; [exact Hnone|].
  destruct (reads_without_data w "bob" d Hok) as (Hmissing & _ & _).
  destruct (Hmissing Hnone) as [Htwin Hreport].
  split; [exact Htwin|]. split; [exact Hreport|].
  destruct (reads_without_data w "ana" d Hok) as (_ & _ & Hunset).
  pose (r := {| thresholds := None;
                aggregates :=
                  Some (new_aggregates
                          (apply_duration (Clock.hm 12 0) 30 (Some None)));
                state := Some Healthy;
                updated_at := Some 9 |}).
  assert (Hrow : digital_twins d !! "ana" = Some r) by (by vm_compute).
  assert (Hth : truthy (thresholds r) = false) by reflexivity.
  exact (Hunset r Hrow Hth).
Defined.

(** ** Requests that share the store *)

Section Concurrency.

Variable sc : schema.

Lemma request_step_ready r d :
  is_ready r ->
  request_step sc r d =
  (with_phase r
     (Loaded (aggregates <$>
                select_twin (user_id (req_event r))
                  (insert_twin sc (req_db_clock r) (user_id (req_event r))
                     (insert_event (req_event r) d)))), d).
Proof. unfold is_ready, request_step. intros Hr. rewrite Hr. reflexivity. Qed.

(** A read followed at once by the write is one committed event. *)
Lemma request_step_loaded r d :
  is_ready r ->
  let r1 := fst (request_step sc r d) in
  snd (request_step sc r1 d) =
    persist_event sc (req_now r) (req_db_clock r) (req_event r) d /\
  is_finished (fst (request_step sc r1 d)).
Proof.
  intros Hr r1. subst r1. rewrite (request_step_ready r d Hr).
  unfold request_step, persist_event, is_finished; simpl. done.
Qed.

(** It is what the handler itself leaves when no call raises. *)
Lemma persist_event_is_ingest_event now t e d :
  persist_event sc now t e d = snd (ingest_event sc (quiet now t) e d).
Proof. by rewrite ingest_event_store. Qed.

(** A request that runs alone answers and writes as the handler does. *)
Lemma request_alone_is_ingest_event now t e d :
  run_schedule sc [0%nat; 0%nat] [fresh_request now t e] d =
  ([with_phase (fresh_request now t e)
      (Finished (fst (ingest_event sc (quiet now t) e d)))],
   snd (ingest_event sc (quiet now t) e d)).
Proof. by rewrite ingest_event_outcome. Qed.

Lemma commit_in_order_ext pool pool' order d :
  (forall i, i ∈ order -> pool' !! i = pool !! i) ->
  commit_in_order sc pool' order d = commit_in_order sc pool order d.
Proof.
  revert d. induction order as [|i order IH]; intros d Hsame; [done|].
  unfold commit_in_order. cbn [fold_left]. rewrite (Hsame i) by (by left).
  apply IH. intros j Hj. apply Hsame. by right.
Qed.

Lemma run_schedule_pair i rest pool d r :
  pool !! i = Some r -> is_ready r ->
  run_schedule sc (i :: i :: rest) pool d =
  run_schedule sc rest
    (<[i := fst (request_step sc (fst (request_step sc r d)) d)]> pool)
    (persist_event sc (req_now r) (req_db_clock r) (req_event r) d).
Proof.
  intros Hr Hrdy. pose proof (lookup_lt_Some _ _ _ Hr) as Hlt.
  destruct (request_step_loaded r d Hrdy) as [Hdb _]. cbv zeta in Hdb.
  cbn [run_schedule]. rewrite Hr.
  destruct (request_step sc r d) as [r1 d1] eqn:Hstep1.
  assert (d1 = d) as ->.
  { rewrite (request_step_ready r d Hrdy) in Hstep1. congruence. }
  rewrite list_lookup_insert_eq by done.
  cbn [fst] in *.
  destruct (request_step sc r1 d) as [r2 d2] eqn:Hstep2.
  cbn [fst snd] in *. subst d2.
  by rewrite list_insert_insert_eq.
Qed.

Lemma run_one_at_a_time order :
  forall pool d,
    NoDup order ->
    (forall i, i ∈ order -> exists r, pool !! i = Some r /\ is_ready r) ->
    let res := run_schedule sc (one_at_a_time order) pool d in
    snd res = commit_in_order sc pool order d /\
    length (fst res) = length pool /\
    (forall j, j ∈ order -> exists r', fst res !! j = Some r' /\ is_finished r') /\
    (forall j, j ∉ order -> fst res !! j = pool !! j).
Proof.
  induction order as [|i order IH]; intros pool d Hnd Hready res.
  - subst res; simpl. repeat split; try done.
    intros j Hj. by apply elem_of_nil in Hj.
  - apply NoDup_cons in Hnd as [Hi Hnd].
    destruct (Hready i) as (r & Hr & Hrdy); [by left|].
    pose proof (lookup_lt_Some _ _ _ Hr) as Hlt.
    destruct (request_step_loaded r d Hrdy) as [_ Hfin]. cbv zeta in Hfin.
    subst res. unfold one_at_a_time. cbn [flat_map app].
    fold (one_at_a_time order).
    rewrite (run_schedule_pair i _ pool d r Hr Hrdy).
    set (r2 := fst (request_step sc (fst (request_step sc r d)) d)) in *.
    set (pool2 := <[i := r2]> pool).
    assert (Hother : forall j, j ≠ i -> pool2 !! j = pool !! j).
    { intros j Hj. subst pool2. by rewrite list_lookup_insert_ne. }
    assert (Hrest : forall j, j ∈ order -> j ≠ i) by (intros j Hj ->; done).
    destruct (IH pool2
                (persist_event sc (req_now r) (req_db_clock r) (req_event r) d)
                Hnd) as (Hsnd & Hlen & Hdone & Hkeep).
    { intros j Hj. rewrite Hother by auto. apply Hready. by right. }
    split; [|split; [|split]].
    + rewrite Hsnd. unfold commit_in_order at 2. cbn [fold_left]. rewrite Hr.
      apply commit_in_order_ext. intros j Hj. apply Hother. auto.
    + rewrite Hlen. subst pool2. apply length_insert.
    + intros j Hj. destruct (decide (j = i)) as [->|Hne].
      * rewrite Hkeep by done. subst pool2.
        rewrite list_lookup_insert_eq by done. eauto.
      * apply Hdone. apply elem_of_cons in Hj as [?|?]; done.
    + intros j Hj. apply not_elem_of_cons in Hj as [Hne Hj].
      rewrite Hkeep by done. by apply Hother.
Qed.

Lemma commit_in_order_cons pool i order d :
  commit_in_order sc pool (i :: order) d =
  commit_in_order sc pool order
    match pool !! i with
    | Some r => persist_event sc (req_now r) (req_db_clock r) (req_event r) d
    | None => d
    end.
Proof. reflexivity. Qed.

Lemma events_of_cons pool i order :
  events_of pool (i :: order) =
  match pool !! i with
  | Some r => req_event r :: events_of pool order
  | None => events_of pool order
  end.
Proof. unfold events_of. simpl. by destruct (pool !! i). Qed.

Lemma commit_in_order_today pool order d uid :
  today_minutes_of sc (commit_in_order sc pool order d) uid =
  today_minutes_of sc d uid + minutes_for uid (events_of pool order).
Proof.
  revert d. induction order as [|i order IH]; intros d.
  - unfold commit_in_order; simpl. lia.
  - rewrite commit_in_order_cons, events_of_cons, IH.
    destruct (pool !! i) as [r|]; [|done].
    rewrite persist_event_today. cbn [minutes_for].
    destruct (decide (user_id (req_event r) = uid)).
    + rewrite bool_decide_eq_true_2 by done. lia.
    + rewrite bool_decide_eq_false_2 by done. lia.
Qed.

Lemma minutes_for_perm uid evs evs' :
  evs ≡ₚ evs' -> minutes_for uid evs = minutes_for uid evs'.
Proof. induction 1; simpl; lia. Qed.

Lemma events_of_from pre pool :
  events_of (pre ++ pool) (seq (length pre) (length pool)) = map req_event pool.
Proof.
  revert pre. induction pool as [|r pool IH]; intros pre; [done|].
  cbn [length seq map]. rewrite events_of_cons, list_lookup_middle by done.
  f_equal. specialize (IH (pre ++ [r])%list).
  rewrite <- app_assoc, length_app in IH. cbn [app length] in IH.
  by rewrite Nat.add_1_r in IH.
Qed.

Lemma events_of_all pool :
  events_of pool (seq 0 (length pool)) = map req_event pool.
Proof. apply (events_of_from [] pool). Qed.

Lemma events_of_perm pool order order' :
  order ≡ₚ order' -> events_of pool order ≡ₚ events_of pool order'.
Proof. intros Hp. unfold events_of. by rewrite Hp. Qed.

End Concurrency.

(** ** C1 *)

(** C1, as the code behaves.  The handler takes no lock and its [UPDATE]
    writes the whole object computed from an earlier [SELECT]: when two
    requests for the same user both read before either writes, the second
    write replaces the first and one duration is lost.  Here the twin
    holds 10 minutes, the requests carry 30 and 45, and the store ends at
    55 instead of 85. *)
Lemma concurrent_update_lost :
  let res :=
    run_schedule null_schema (reads_then_writes 2) two_requests ana_played_10 in
  Forall is_ready two_requests /\
  Forall (fun r => user_id (req_event r) = "ana") two_requests /\
  Forall is_finished (fst res) /\
  today_minutes_of null_schema ana_played_10 "ana" = 10 /\
  total_duration (map req_event two_requests) = 75 /\
  today_minutes_of null_schema (snd res) "ana" = 55 /\
  today_minutes_of null_schema (snd res) "ana" <>
    today_minutes_of null_schema ana_played_10 "ana"
    + total_duration (map req_event two_requests).
Proof.
  intros res.
  assert (Hfinal : today_minutes_of null_schema (snd res) "ana" = 55)
    by (by vm_compute).
  assert (Hbefore : today_minutes_of null_schema ana_played_10 "ana" = 10)
    by (by vm_compute).
  assert (Hsum : total_duration (map req_event two_requests) = 75)
    by reflexivity.
  split; [repeat constructor|]. split; [repeat constructor|].
  split; [subst res; vm_compute; repeat constructor|].
  split; [exact Hbefore|]. split; [exact Hsum|]. split; [exact Hfinal|].
  rewrite Hfinal, Hbefore, Hsum. lia.
Qed.

(** The stress test of the spec: a hundred one-minute events from a zero
    baseline, all read before any is written, leave 1 minute, not 100. *)
Example hundred_concurrent_events :
  digital_twins ana_at_zero !! "ana" <> None /\
  today_minutes_of null_schema ana_at_zero "ana" = 0 /\
  today_minutes_of null_schema
    (snd (run_schedule null_schema (reads_then_writes 100) hundred_requests
            ana_at_zero)) "ana" = 1.
Proof. split; [by vm_compute | split; by vm_compute]. Qed.

(** C1, amended.  When the requests for one user do not overlap, each one
    reading and writing before the next one reads, in whatever order they
    are served, every request completes and the final [today_minutes] is
    the value before plus the sum of all durations. *)
Theorem non_overlapping_requests_add_up sc (order : list nat) pool d uid :
  order ≡ₚ seq 0 (length pool) ->
  Forall is_ready pool ->
  Forall (fun r => user_id (req_event r) = uid) pool ->
  let res := run_schedule sc (one_at_a_time order) pool d in
  Forall is_finished (fst res) /\
  today_minutes_of sc (snd res) uid =
    today_minutes_of sc d uid + total_duration (map req_event pool).
Proof.
  intros Hperm Hready Huser res.
  assert (Hnd : NoDup order) by (rewrite Hperm; apply NoDup_seq).
  assert (Hlt : forall i, i ∈ order <-> (i < length pool)%nat).
  { intros i. rewrite Hperm, elem_of_seq. lia. }
  destruct (run_one_at_a_time sc order pool d Hnd)
    as (Hsnd & Hlen & Hdone & _).
  { intros i Hi. apply Hlt, lookup_lt_is_Some in Hi as [r Hr].
    exists r. split; [done|].
    by apply (proj1 (Forall_lookup _ _) Hready i r). }
  fold res in Hsnd, Hlen, Hdone.
  split.
  - apply Forall_lookup. intros j r' Hj.
    destruct (Hdone j) as (r'' & Hj' & Hfin).
    { apply Hlt. rewrite <- Hlen. by apply lookup_lt_Some in Hj. }
    congruence.
  - rewrite Hsnd, commit_in_order_today.
    rewrite (minutes_for_perm uid _ _ (events_of_perm pool _ _ Hperm)).
    rewrite events_of_all, minutes_for_same; [done|].
    by apply Forall_map.
Qed.

Lemma non_overlapping_requests_add_up_witness :
  let res :=
    run_schedule null_schema (one_at_a_time [1%nat; 0%nat]) two_requests
      ana_played_10 in
  [1%nat; 0%nat] ≡ₚ seq 0 (length two_requests) /\
  Forall is_ready two_requests /\
  Forall (fun r => user_id (req_event r) = "ana") two_requests /\
  Forall is_finished (fst res) /\
  today_minutes_of null_schema (snd res) "ana" =
    today_minutes_of null_schema ana_played_10 "ana" + 75.
Proof.
  intros res.
  assert (Hperm : [1%nat; 0%nat] ≡ₚ seq 0 (length two_requests))
    by apply perm_swap.
  assert (Hready : Forall is_ready two_requests) by (repeat constructor).
  assert (Huser : Forall (fun r => user_id (req_event r) = "ana") two_requests)
    by (repeat constructor).
  split; [exact Hperm|]. split; [exact Hready|]. split; [exact Huser|].
  exact (non_overlapping_requests_add_up null_schema [1%nat; 0%nat]
           two_requests ana_played_10 "ana" Hperm Hready Huser).
Defined.

(** * Beyond the claims *)

(** ** Closed forms *)

Lemma until_fault_incl w ops o : o ∈ until_fault w ops -> o ∈ ops.
Proof.
  induction ops as [|o' ops IH]; simpl; [done|].
  destruct (fault w o').
  - intros Ho. apply list_elem_of_singleton in Ho as ->. by left.
  - intros Ho. apply elem_of_cons in Ho as [->|Ho]; [by left|].
    right. by apply IH.
Qed.

Lemma health_outcome w d :
  health w d =
  (match first_fault w health_ops with
   | Some (_, msg) => HealthError msg
   | None => HealthOk
   end,
   {| committed := d; working := d; trace := until_fault w health_ops |}).
Proof.
  unfold health, health_try, health_ops. run_handler. split_faults w.
Qed.

Lemma get_twin_trace w uid d :
  trace (snd (handle (get_twin_try w uid) d)) = until_fault w read_ops.
Proof.
  unfold get_twin_try, read_ops. run_handler. split_faults w.
Qed.

Lemma get_report_trace w uid d :
  trace (snd (handle (get_report_try w uid) d)) = until_fault w read_ops.
Proof.
  unfold get_report_try, read_ops. run_handler. split_faults w.
Qed.

(** [update_threshold] in closed form, for every world. *)
Lemma update_threshold_closed sc w uid body d :
  update_threshold sc w uid body d =
  let th := merge_thresholds body (prior_thresholds d uid) in
  let d' := update_twin (set_thresholds (db_clock w) th) uid
              (insert_twin sc (db_clock w) uid d) in
  match first_fault w (update_ops d uid) with
  | Some (_, msg) => (Error msg, d)
  | None =>
      match first_fault w release_ops with
      | Some (_, msg) => (Error msg, d')
      | None => (ThresholdsSet uid th, d')
      end
  end.
Proof.
  unfold update_threshold, update_threshold_try, prior_thresholds,
    update_ops, release_ops, select_twin, insert_twin.
  run_handler.
  destruct (digital_twins d !! uid) as [r|] eqn:Hrow; simpl;
    repeat (rewrite ?Hrow; simpl;
            match goal with
            | |- context [fault w ?o] =>
                destruct (fault w o) eqn:?; simpl; try reflexivity
            end);
    rewrite ?Hrow; reflexivity.
Qed.

Lemma update_threshold_store sc w uid body d :
  snd (update_threshold sc w uid body d) =
  match first_fault w (update_ops d uid) with
  | Some _ => d
  | None =>
      update_twin
        (set_thresholds (db_clock w)
           (merge_thresholds body (prior_thresholds d uid))) uid
        (insert_twin sc (db_clock w) uid d)
  end.
Proof.
  rewrite update_threshold_closed. cbv zeta.
  destruct (first_fault w (update_ops d uid)) as [[o msg]|]; [done|].
  by destruct (first_fault w release_ops) as [[o msg]|].
Qed.

Lemma run_calls_cons sc c calls d :
  run_calls sc (c :: calls) d = run_calls sc calls (snd (run_call sc c d)).
Proof. reflexivity. Qed.

(** ** The health probe *)

(** X1. [health] answers healthy exactly when the connection can be opened
    and closed; it issues no statement, so its answer does not depend on
    what the store holds, and it leaves the store as it was. *)
Theorem health_reports_connectivity w d :
  (fst (health w d) = HealthOk <->
   fault w Connect = None /\ fault w Close_conn = None) /\
  (forall d', fst (health w d') = fst (health w d)) /\
  committed (snd (health w d)) = d /\
  working (snd (health w d)) = d /\
  Forall (fun o => o = Connect \/ o = Close_conn) (trace (snd (health w d))).
Proof.
  rewrite health_outcome. cbn [fst snd committed working trace].
  split; [|split; [|split; [|split]]]; try done.
  - unfold health_ops. cbn [first_fault].
    destruct (fault w Connect), (fault w Close_conn); split;
      try done; intros [? ?]; done.
  - intros d'. by rewrite health_outcome.
  - apply Forall_forall. intros o Ho. apply until_fault_incl in Ho.
    unfold health_ops in Ho.
    apply elem_of_cons in Ho as [->|Ho]; [by left|].
    apply list_elem_of_singleton in Ho as ->. by right.
Qed.

(** ** The read handlers *)

(** X2. [get_twin] and [get_report] never write: whatever raises, the
    store they leave is the store they found, and among the calls they
    issue there is no insert, no update and no commit. *)
Theorem read_handlers_never_write w uid d :
  snd (get_twin w uid d) = d /\
  snd (get_report w uid d) = d /\
  Forall (fun o => is_write o = false)
         (trace (snd (handle (get_twin_try w uid) d))) /\
  Forall (fun o => is_write o = false)
         (trace (snd (handle (get_report_try w uid) d))).
Proof.
  rewrite get_twin_outcome, get_report_outcome, get_twin_trace,
    get_report_trace.
  assert (Hreads : Forall (fun o => is_write o = false) (until_fault w read_ops)).
  { apply Forall_forall. intros o Ho. apply until_fault_incl in Ho.
    unfold read_ops in Ho.
    repeat (apply elem_of_cons in Ho as [->|Ho]; [done|]).
    by apply elem_of_nil in Ho. }
  repeat split; try done;
    by destruct (first_fault w read_ops) as [[o msg]|].
Qed.

(** ** The ledger *)

Lemma ledger_after_calls sc calls d :
  events (run_calls sc calls d) = (events d ++ logged calls)%list.
Proof.
  revert d. induction calls as [|c calls IH]; intros d.
  - unfold run_calls; simpl. by rewrite app_nil_r.
  - rewrite run_calls_cons, IH.
    destruct c as [w e|w uid body]; cbn [run_call logged].
    + rewrite ingest_event_store.
      destruct (first_fault w ingest_ops); [done|].
      unfold persist_event, update_twin, insert_twin, insert_event; simpl.
      destruct (digital_twins d !! user_id e); simpl;
        by rewrite <- app_assoc.
    + rewrite update_threshold_store.
      destruct (first_fault w (update_ops d uid)); [done|].
      unfold update_twin, insert_twin; simpl.
      by destruct (digital_twins d !! uid).
Qed.

(** X3. The [events] ledger is append-only and exact: after any sequence
    of [ingest_event] and [update_threshold] calls it is the old ledger
    followed by one row per committed event, in call order, each row the
    event's user, game and duration.  A failed call and a threshold update
    add nothing. *)
Theorem ledger_is_append_only sc calls d :
  events (run_calls sc calls d) = (events d ++ logged calls)%list /\
  events d `prefix_of` events (run_calls sc calls d).
Proof.
  rewrite ledger_after_calls. split; [done|]. by eexists.
Qed.

Lemma ledger_minutes_app uid l1 l2 :
  ledger_minutes uid (l1 ++ l2) = ledger_minutes uid l1 + ledger_minutes uid l2.
Proof.
  induction l1 as [|[[u g] m] l1 IH]; simpl; [done|]. rewrite IH. lia.
Qed.

Lemma loaded_insert_twin sc t uid uid' d :
  loaded_aggregates sc (insert_twin sc t uid d) uid' =
  loaded_aggregates sc d uid'.
Proof.
  unfold loaded_aggregates. rewrite lookup_insert_twin.
  destruct (digital_twins d !! uid'); [done|]. by case_decide.
Qed.

Lemma update_threshold_loaded sc w uid body d uid' :
  loaded_aggregates sc (snd (update_threshold sc w uid body d)) uid' =
  loaded_aggregates sc d uid'.
Proof.
  rewrite update_threshold_store.
  destruct (first_fault w (update_ops d uid)); [done|].
  by rewrite loaded_set_thresholds, loaded_insert_twin.
Qed.

Lemma run_calls_today sc calls d uid :
  today_minutes_of sc (run_calls sc calls d) uid =
  today_minutes_of sc d uid + ledger_minutes uid (logged calls).
Proof.
  revert d. induction calls as [|c calls IH]; intros d.
  - unfold run_calls; simpl. lia.
  - rewrite run_calls_cons, IH.
    destruct c as [w e|w u body]; cbn [run_call logged].
    + rewrite ingest_event_today. unfold added.
      destruct (first_fault w ingest_ops); [lia|]. cbn [ledger_minutes].
      destruct (decide (user_id e = uid)).
      * rewrite bool_decide_eq_true_2 by done. lia.
      * rewrite bool_decide_eq_false_2 by done. lia.
    + unfold today_minutes_of. by rewrite update_threshold_loaded.
Qed.

Lemma run_calls_weekly sc calls d uid :
  weekly_minutes_of sc (run_calls sc calls d) uid =
  weekly_minutes_of sc d uid + ledger_minutes uid (logged calls).
Proof.
  revert d. induction calls as [|c calls IH]; intros d.
  - unfold run_calls; simpl. lia.
  - rewrite run_calls_cons, IH.
    destruct c as [w e|w u body]; cbn [run_call logged].
    + rewrite ingest_event_weekly. unfold added.
      destruct (first_fault w ingest_ops); [lia|]. cbn [ledger_minutes].
      destruct (decide (user_id e = uid)).
      * rewrite bool_decide_eq_true_2 by done. lia.
      * rewrite bool_decide_eq_false_2 by done. lia.
    + unfold weekly_minutes_of. by rewrite update_threshold_loaded.
Qed.

(** X4. Sequential calls keep the aggregates in step with the ledger: over
    any sequence of [ingest_event] and [update_threshold] calls, failed
    ones included, a user's [today_minutes] and [weekly_minutes] each grow
    by exactly the minutes the ledger gains for that user. *)
Theorem aggregates_follow_ledger sc calls d uid :
  let d' := run_calls sc calls d in
  today_minutes_of sc d' uid - today_minutes_of sc d uid =
    ledger_minutes uid (events d') - ledger_minutes uid (events d) /\
  weekly_minutes_of sc d' uid - weekly_minutes_of sc d uid =
    ledger_minutes uid (events d') - ledger_minutes uid (events d).
Proof.
  intros d'. subst d'.
  rewrite run_calls_today, run_calls_weekly, ledger_after_calls.
  rewrite ledger_minutes_app. lia.
Qed.

(** ** Which rows and columns a handler touches *)

(** X5. [ingest_event] touches one row only: every other user's row is
    exactly what it was, the user's own row keeps its thresholds, and no
    row ever disappears; this holds whether the call commits or fails. *)
Theorem ingest_event_frame sc w e d :
  let d' := snd (ingest_event sc w e d) in
  (forall uid, uid <> user_id e ->
     digital_twins d' !! uid = digital_twins d !! uid) /\
  (forall r, digital_twins d !! user_id e = Some r ->
     exists r', digital_twins d' !! user_id e = Some r' /\
                thresholds r' = thresholds r) /\
  dom (digital_twins d) ⊆ dom (digital_twins d').
Proof.
  intros d'. subst d'. rewrite ingest_event_store.
  destruct (first_fault w ingest_ops); [by eauto|].
  split; [|split].
  - intros uid Hne. rewrite persist_event_lookup. by rewrite decide_False.
  - intros r Hr. rewrite persist_event_lookup, decide_True, Hr by done.
    by eexists.
  - intros uid Hin. apply elem_of_dom in Hin as [r Hr]. apply elem_of_dom.
    rewrite persist_event_lookup. case_decide; [by eexists|].
    by rewrite Hr.
Qed.

(** X6. [update_threshold] writes thresholds and nothing else: the ledger
    is unchanged, other users' rows are unchanged, an existing row keeps
    its aggregates and its state, every user's three counters read as
    before, and no row disappears; this holds whether the call commits or
    fails. *)
Theorem update_threshold_frame sc w uid body d :
  let d' := snd (update_threshold sc w uid body d) in
  events d' = events d /\
  (forall uid', uid' <> uid ->
     digital_twins d' !! uid' = digital_twins d !! uid') /\
  (forall r, digital_twins d !! uid = Some r ->
     exists r', digital_twins d' !! uid = Some r' /\
                aggregates r' = aggregates r /\ state r' = state r) /\
  (forall uid',
     today_minutes_of sc d' uid' = today_minutes_of sc d uid' /\
     weekly_minutes_of sc d' uid' = weekly_minutes_of sc d uid' /\
     night_minutes_of sc d' uid' = night_minutes_of sc d uid') /\
  dom (digital_twins d) ⊆ dom (digital_twins d').
Proof.
  intros d'.
  assert (Hcounters : forall uid',
    today_minutes_of sc d' uid' = today_minutes_of sc d uid' /\
    weekly_minutes_of sc d' uid' = weekly_minutes_of sc d uid' /\
    night_minutes_of sc d' uid' = night_minutes_of sc d uid').
  { intros uid'. subst d'.
    unfold today_minutes_of, weekly_minutes_of, night_minutes_of.
    by rewrite update_threshold_loaded. }
  subst d'. rewrite update_threshold_store in *.
  destruct (first_fault w (update_ops d uid)); [by eauto 10|].
  split; [|split; [|split; [|split]]]; try done.
  - unfold update_twin, insert_twin; simpl.
    by destruct (digital_twins d !! uid).
  - intros uid' Hne. unfold update_twin; simpl.
    rewrite lookup_alter_ne, lookup_insert_twin by done.
    destruct (digital_twins d !! uid'); [done|]. by rewrite decide_False.
  - intros r Hr. unfold update_twin; simpl.
    rewrite lookup_alter_eq, lookup_insert_twin, Hr. by eexists.
  - intros uid' Hin. apply elem_of_dom in Hin as [r Hr]. apply elem_of_dom.
    unfold update_twin; simpl. rewrite lookup_alter, lookup_insert_twin.
    case_decide; [subst uid'|]; rewrite ?lookup_insert_twin, Hr; by eexists.
Qed.

(** ** What the caller is told and what is stored *)

Lemma or_else_empty (m : dict) : or_else (Some m) ∅ = m.
Proof.
  unfold or_else, truthy. destruct (decide (m = ∅)) as [->|Hne].
  - by rewrite bool_decide_eq_true_2.
  - by rewrite bool_decide_eq_false_2.
Qed.

Lemma ingest_event_response sc w e d :
  first_fault w ingest_ops = None ->
  first_fault w release_ops = None ->
  let d' := snd (ingest_event sc w e d) in
  ingest_event sc w e d =
  (Processed (user_id e) (game_name e)
     (today_minutes_of sc d' (user_id e))
     (weekly_minutes_of sc d' (user_id e))
     (classify (today_minutes_of sc d' (user_id e))), d').
Proof.
  intros Hing Hrel d'. subst d'.
  rewrite ingest_event_today, ingest_event_weekly. unfold added.
  rewrite ingest_event_outcome, Hing, Hrel, !decide_True by done.
  cbv zeta. rewrite select_after_insert.
  by rewrite new_today_spec, new_weekly_spec, new_state_spec.
Qed.

(** X7. The answer to a successful [ingest_event] is what the store holds
    afterwards: its [today_minutes] and [weekly_minutes] are the stored
    counters, its state is the stored state and is the classifier's value
    at the stored [today_minutes], and a following [get_report] shows the
    same three values. *)
Theorem report_matches_response sc w w' e d :
  first_fault w ingest_ops = None ->
  first_fault w release_ops = None ->
  first_fault w' read_ops = None ->
  let uid := user_id e in
  let d' := snd (ingest_event sc w e d) in
  let st := classify (today_minutes_of sc d' uid) in
  fst (ingest_event sc w e d) =
    Processed uid (game_name e) (today_minutes_of sc d' uid)
              (weekly_minutes_of sc d' uid) st /\
  exists dth nth,
    get_report w' uid d' =
      (Report uid (today_minutes_of sc d' uid) (weekly_minutes_of sc d' uid)
              (night_minutes_of sc d' uid) (Some st) dth nth, d').
Proof.
  intros Hing Hrel Hread uid d' st.
  pose proof (ingest_event_response sc w e d Hing Hrel) as Hresp.
  cbv zeta in Hresp. fold uid d' st in Hresp.
  split; [by rewrite Hresp|].
  rewrite get_report_outcome, Hread.
  assert (Hrow : exists r, digital_twins d' !! uid = Some r /\
                           state r = Some st /\
                           aggregates r = loaded_aggregates sc d' uid).
  { subst st. unfold today_minutes_of, loaded_aggregates.
    subst d' uid. rewrite ingest_event_store, Hing.
    rewrite persist_event_lookup, decide_True by done.
    eexists. split; [done|]. cbn [state aggregates set_aggregates].
    split; [|done]. by rewrite stored_today, new_state_spec, new_today_spec. }
  destruct Hrow as (r & -> & Hst & Hag).
  cbv zeta. rewrite Hst, Hag. by eauto.
Qed.

Lemma report_matches_response_witness :
  let w := quiet (Clock.hm 23 0) 4 in
  let d' := snd (ingest_event null_schema w (play "ana" 61) ana_played_10) in
  first_fault w ingest_ops = None /\
  first_fault w release_ops = None /\
  first_fault w read_ops = None /\
  fst (ingest_event null_schema w (play "ana" 61) ana_played_10) =
    Processed "ana" "chess" 71 71 Moderate /\
  exists dth nth,
    get_report w "ana" d' = (Report "ana" 71 71 61 (Some Moderate) dth nth, d').
Proof.
  intros w d'.
  assert (Hing : first_fault w ingest_ops = None) by reflexivity.
  assert (Hrel : first_fault w release_ops = None) by reflexivity.
  assert (Hread : first_fault w read_ops = None) by reflexivity.
  split; [exact Hing|]. split; [exact Hrel|]. split; [exact Hread|].
  exact (report_matches_response null_schema w w (play "ana" 61)
           ana_played_10 Hing Hrel Hread).
Defined.

(** X8. What a successful [update_threshold] returns can be read back:
    [get_twin] shows the returned object as the row's thresholds, and
    [get_report] shows its [daily] and [night] values, which are the
    supplied ones wherever the body supplied them. *)
Theorem thresholds_round_trip sc w w' uid body d :
  first_fault w (update_ops d uid) = None ->
  first_fault w release_ops = None ->
  first_fault w' read_ops = None ->
  let d' := snd (update_threshold sc w uid body d) in
  let th := merge_thresholds body (prior_thresholds d uid) in
  fst (update_threshold sc w uid body d) = ThresholdsSet uid th /\
  (exists ag st, get_twin w' uid d' = (TwinView uid (Some th) ag st, d')) /\
  (exists t wk n st,
     get_report w' uid d' =
       (Report uid t wk n st (get th "daily" 120) (get th "night" 60), d')) /\
  (forall v, daily body = Some v -> get th "daily" 120 = v) /\
  (forall v, night body = Some v -> get th "night" 60 = v).
Proof.
  intros Hupd Hrel Hread d' th.
  assert (Hrow : exists r, digital_twins d' !! uid = Some r /\
                           thresholds r = Some th).
  { subst d'. rewrite update_threshold_store, Hupd.
    unfold update_twin; simpl. rewrite lookup_alter_eq, lookup_insert_twin.
    destruct (digital_twins d !! uid); simpl; [by eexists|].
    rewrite decide_True by done. by eexists. }
  destruct Hrow as (r & Hr & Hth).
  split; [|split; [|split; [|split]]].
  - rewrite update_threshold_closed. cbv zeta. by rewrite Hupd, Hrel.
  - rewrite get_twin_outcome, Hread, Hr, Hth. by eauto.
  - rewrite get_report_outcome, Hread, Hr. cbv zeta.
    rewrite Hth, or_else_empty. by eauto 10.
  - intros v Hv. subst th. unfold get.
    rewrite lookup_merge_thresholds, Hv.
    rewrite decide_False by done. rewrite decide_True by done. done.
  - intros v Hv. subst th. unfold get.
    rewrite lookup_merge_thresholds, Hv. by rewrite decide_True.
Qed.

Lemma thresholds_round_trip_witness :
  let w := quiet (Clock.hm 12 0) 5 in
  let body := {| daily := Some 90; night := None |} in
  let d' := snd (update_threshold null_schema w "ana" body ana_played_10) in
  first_fault w (update_ops ana_played_10 "ana") = None /\
  first_fault w release_ops = None /\
  first_fault w read_ops = None /\
  exists t wk n st,
    get_report w "ana" d' = (Report "ana" t wk n st 90 60, d').
Proof.
  intros w body d'.
  assert (Hupd : first_fault w (update_ops ana_played_10 "ana") = None)
    by reflexivity.
  assert (Hrel : first_fault w release_ops = None) by reflexivity.
  assert (Hread : first_fault w read_ops = None) by reflexivity.
  split; [exact Hupd|]. split; [exact Hrel|]. split; [exact Hread|].
  destruct (thresholds_round_trip null_schema w w "ana" body ana_played_10
              Hupd Hrel Hread) as (_ & _ & Hreport & _).
  exact Hreport.
Defined.

(** ** Failures *)

(** X9. When a call of [update_threshold] up to its commit raises, the
    caller gets the error envelope with that exception's message and the
    store is what it was: no thresholds are written and a row inserted for
    a new user is not kept. *)
Theorem update_threshold_failure_aborts sc w uid body d o msg :
  first_fault w (update_ops d uid) = Some (o, msg) ->
  update_threshold sc w uid body d = (Error msg, d) /\
  persistence_step o = true /\
  (o = Insert_twin -> digital_twins d !! uid = None).
Proof.
  intros Hfail. rewrite update_threshold_closed, Hfail.
  split; [done|]. unfold update_ops in Hfail.
  destruct (digital_twins d !! uid); cbn [first_fault] in Hfail;
    repeat match type of Hfail with
           | context [fault w ?c] => destruct (fault w c) eqn:?
           end;
    simplify_eq; done.
Qed.

Lemma update_threshold_failure_aborts_witness :
  let w := failing (Clock.hm 12 0) 7 Commit "server closed the connection" in
  let body := {| daily := Some 90; night := None |} in
  first_fault w (update_ops empty_db "ana")
    = Some (Commit, "server closed the connection") /\
  update_threshold null_schema w "ana" body empty_db
    = (Error "server closed the connection", empty_db).
Proof.
  intros w body.
  assert (Hfail : first_fault w (update_ops empty_db "ana")
                  = Some (Commit, "server closed the connection"))
    by reflexivity.
  split; [exact Hfail|].
  exact (proj1 (update_threshold_failure_aborts null_schema w "ana" body
                  empty_db Commit "server closed the connection" Hfail)).
Defined.

(** X10. An error envelope does not mean nothing was written: when every
    call of [ingest_event] up to the commit succeeds and [cur.close()] or
    [conn.close()] raises, the caller gets the error although the event is
    committed; sending the same event again then counts it twice, in the
    counters and in the ledger. *)
Theorem error_after_commit_is_committed sc w w2 e d o msg :
  first_fault w ingest_ops = None ->
  first_fault w release_ops = Some (o, msg) ->
  first_fault w2 ingest_ops = None ->
  let uid := user_id e in
  let d1 := snd (ingest_event sc w e d) in
  let d2 := snd (ingest_event sc w2 e d1) in
  let row := (user_id e, game_name e, duration e) in
  fst (ingest_event sc w e d) = Error msg /\
  today_minutes_of sc d1 uid = today_minutes_of sc d uid + duration e /\
  events d1 = (events d ++ [row])%list /\
  today_minutes_of sc d2 uid = today_minutes_of sc d uid + 2 * duration e /\
  events d2 = (events d ++ [row; row])%list.
Proof.
  intros Hing Hrel Hing2 uid d1 d2 row.
  pose proof (ledger_after_calls sc [Ingest w e] d) as Hl1.
  pose proof (ledger_after_calls sc [Ingest w e; Ingest w2 e] d) as Hl2.
  cbn [logged] in Hl1, Hl2. rewrite Hing in Hl1, Hl2. rewrite Hing2 in Hl2.
  unfold run_calls in Hl1, Hl2. cbn [fold_left run_call] in Hl1, Hl2.
  assert (Hresp : fst (ingest_event sc w e d) = Error msg).
  { rewrite ingest_event_outcome, Hing. cbv zeta. by rewrite Hrel. }
  subst d2 d1 uid row.
  rewrite !ingest_event_today. unfold added.
  rewrite Hing, Hing2, !decide_True by done.
  repeat split; try done. lia.
Qed.

Lemma error_after_commit_is_committed_witness :
  let w := failing (Clock.hm 12 0) 2 Close_conn "connection already closed" in
  let w2 := quiet (Clock.hm 12 5) 3 in
  let d1 := snd (ingest_event null_schema w (play "ana" 30) ana_played_10) in
  let d2 := snd (ingest_event null_schema w2 (play "ana" 30) d1) in
  first_fault w ingest_ops = None /\
  first_fault w release_ops = Some (Close_conn, "connection already closed") /\
  first_fault w2 ingest_ops = None /\
  fst (ingest_event null_schema w (play "ana" 30) ana_played_10)
    = Error "connection already closed" /\
  today_minutes_of null_schema d2 "ana" = 70.
Proof.
  intros w w2 d1 d2.
  assert (Hing : first_fault w ingest_ops = None) by reflexivity.
  assert (Hrel : first_fault w release_ops
                 = Some (Close_conn, "connection already closed"))
    by reflexivity.
  assert (Hing2 : first_fault w2 ingest_ops = None) by reflexivity.
  split; [exact Hing|]. split; [exact Hrel|]. split; [exact Hing2|].
  destruct (error_after_commit_is_committed null_schema w w2 (play "ana" 30)
              ana_played_10 Close_conn "connection already closed"
              Hing Hrel Hing2) as (Herr & _ & _ & Htwice & _).
  split; [exact Herr|]. exact Htwice.
Defined.

(** ** No validation of durations *)



(** ** Repeating a threshold update *)

Lemma default_thresholds_nonempty : default_thresholds <> ∅.
Proof. apply insert_non_empty. Qed.

Lemma prior_thresholds_nonempty d uid : prior_thresholds d uid <> ∅.
Proof.
  unfold prior_thresholds.
  destruct (digital_twins d !! uid) as [r|];
    [|apply default_thresholds_nonempty].
  unfold or_else, truthy. destruct (thresholds r) as [m|];
    [|apply default_thresholds_nonempty].
  destruct (decide (m = ∅)) as [->|Hne].
  - rewrite bool_decide_eq_true_2 by done. apply default_thresholds_nonempty.
  - by rewrite bool_decide_eq_false_2.
Qed.

Lemma merge_thresholds_nonempty body (th : dict) :
  th <> ∅ -> merge_thresholds body th <> ∅.
Proof.
  intros Hne. unfold merge_thresholds.
  destruct (night body); [apply insert_non_empty|].
  destruct (daily body); [apply insert_non_empty|done].
Qed.

Lemma merge_thresholds_idempotent body (th : dict) :
  merge_thresholds body (merge_thresholds body th) = merge_thresholds body th.
Proof.
  apply map_eq. intros k. rewrite !lookup_merge_thresholds.
  repeat case_decide; by repeat case_match.
Qed.

Lemma lookup_store_thresholds sc t th uid uid' d :
  digital_twins
    (update_twin (set_thresholds t th) uid (insert_twin sc t uid d)) !! uid' =
  if decide (uid = uid')
  then Some (set_thresholds t th
               (default (blank_twin sc t) (digital_twins d !! uid)))
  else digital_twins d !! uid'.
Proof.
  unfold update_twin; simpl. rewrite lookup_alter.
  case_decide as Hu.
  - subst uid'. rewrite lookup_insert_twin.
    destruct (digital_twins d !! uid); simpl; [done|].
    by rewrite decide_True.
  - rewrite lookup_insert_twin.
    destruct (digital_twins d !! uid'); [done|]. by rewrite decide_False.
Qed.

Lemma prior_after_store sc t th uid d :
  th <> ∅ ->
  prior_thresholds
    (update_twin (set_thresholds t th) uid (insert_twin sc t uid d)) uid = th.
Proof.
  intros Hne. unfold prior_thresholds.
  rewrite lookup_store_thresholds, decide_True by done.
  cbn [thresholds set_thresholds]. unfold or_else, truthy.
  by rewrite bool_decide_eq_false_2.
Qed.

(** X12. [update_threshold] is idempotent: sending the same body a second
    time returns the same thresholds and leaves the thresholds,
    aggregates and state of every row, and the ledger, as the first call
    left them (only [updated_at] moves). *)
Theorem update_threshold_idempotent sc w1 w2 uid body d :
  first_fault w1 threshold_ops = None ->
  first_fault w2 threshold_ops = None ->
  let r1 := update_threshold sc w1 uid body d in
  let r2 := update_threshold sc w2 uid body (snd r1) in
  fst r2 = fst r1 /\
  (forall uid',
     content <$> (digital_twins (snd r2) !! uid') =
     content <$> (digital_twins (snd r1) !! uid')) /\
  events (snd r2) = events (snd r1).
Proof.
  intros H1 H2 r1 r2. subst r2 r1.
  rewrite (update_threshold_outcome sc w1 uid body d H1). cbv zeta.
  cbn [snd].
  rewrite (update_threshold_outcome sc w2 uid body _ H2). cbv zeta.
  cbn [fst snd].
  set (th := merge_thresholds body (prior_thresholds d uid)).
  assert (Hne : th <> ∅)
    by apply merge_thresholds_nonempty, prior_thresholds_nonempty.
  rewrite (prior_after_store sc (db_clock w1) th uid d Hne).
  subst th. rewrite merge_thresholds_idempotent.
  set (th := merge_thresholds body (prior_thresholds d uid)) in *.
  split; [done|]. split.
  - intros uid'. rewrite (lookup_store_thresholds sc (db_clock w2)).
    case_decide as Hu; [subst uid'|done].
    rewrite lookup_store_thresholds, decide_True by done. done.
  - unfold update_twin, insert_twin; simpl.
    repeat case_match; done.
Qed.

Lemma update_threshold_idempotent_witness :
  let w1 := quiet (Clock.hm 12 0) 5 in
  let w2 := quiet (Clock.hm 12 1) 6 in
  let body := {| daily := Some 90; night := None |} in
  let r1 := update_threshold null_schema w1 "ana" body empty_db in
  let r2 := update_threshold null_schema w2 "ana" body (snd r1) in
  first_fault w1 threshold_ops = None /\
  first_fault w2 threshold_ops = None /\
  fst r2 = fst r1.
Proof.
  intros w1 w2 body r1 r2.
  assert (H1 : first_fault w1 threshold_ops = None) by reflexivity.
  assert (H2 : first_fault w2 threshold_ops = None) by reflexivity.
  split; [exact H1|]. split; [exact H2|].
  exact (proj1 (update_threshold_idempotent null_schema w1 w2 "ana" body
                  empty_db H1 H2)).
Defined.

(** ** The stored state along a run *)

Lemma state_consistent_step sc w e d uid :
  state_consistent sc d uid ->
  state_consistent sc (snd (ingest_event sc w e d)) uid.
Proof.
  intros Hc r'. unfold state_consistent in Hc.
  rewrite ingest_event_today. unfold added.
  rewrite ingest_event_store.
  destruct (first_fault w ingest_ops).
  { intros Hr. rewrite (Hc r' Hr). f_equal. f_equal. lia. }
  destruct (decide (user_id e = uid)) as [Hu|Hu].
  - subst uid. intros Hr.
    pose proof (persist_event_state sc (wall_clock w) (db_clock w) e d) as Hs.
    rewrite Hr in Hs. cbn [fmap option_fmap option_map] in Hs.
    by simplify_eq.
  - rewrite persist_event_lookup, decide_False by done.
    intros Hr. rewrite (Hc r' Hr). f_equal. f_equal. lia.
Qed.

Lemma state_consistent_run sc calls d :
  (forall uid, state_consistent sc d uid) ->
  forall uid, state_consistent sc (run_events sc calls d) uid.
Proof.
  revert d. induction calls as [|c calls IH]; intros d Hc uid; [apply Hc|].
  rewrite run_events_cons. apply IH. intros uid'.
  by apply state_consistent_step.
Qed.

Lemma run_events_today_mono sc calls d uid :
  Forall (fun c => 0 <= duration (snd c)) calls ->
  today_minutes_of sc d uid <= today_minutes_of sc (run_events sc calls d) uid.
Proof.
  intros Hpos. revert d.
  induction Hpos as [|c calls Hc _ IH]; intros d; [done|].
  rewrite run_events_cons. etrans; [|apply IH].
  rewrite ingest_event_today.
  pose proof (added_bounds (fst c) (snd c) uid (duration (snd c)) Hc). lia.
Qed.

Lemma classify_monotone m m' :
  m <= m' -> severity (classify m) <= severity (classify m').
Proof.
  intros Hle. unfold classify.
  destruct (Z.ltb_spec 120 m), (Z.ltb_spec 120 m'),
    (Z.ltb_spec 60 m), (Z.ltb_spec 60 m'); simpl; lia.
Qed.

(** X13. Along sequential [ingest_event] calls the stored state never
    drifts from the stored minutes: if every row's state is the
    classifier's value at its [today_minutes] before the calls, the same
    holds after them, for every user and whatever calls failed. *)
Theorem state_follows_today sc calls d :
  (forall uid, state_consistent sc d uid) ->
  forall uid r,
    digital_twins (run_events sc calls d) !! uid = Some r ->
    state r = Some (classify (today_minutes_of sc (run_events sc calls d) uid)).
Proof.
  intros Hc uid r Hr.
  by apply (state_consistent_run sc calls d Hc uid r).
Qed.

Lemma state_follows_today_witness :
  let calls :=
    [(quiet (Clock.hm 12 0) 1, play "ana" 50);
     (failing (Clock.hm 13 0) 2 Commit "timeout", play "ana" 500);
     (quiet (Clock.hm 14 0) 3, play "ana" 30)] in
  (forall uid, state_consistent null_schema empty_db uid) /\
  forall r,
    digital_twins (run_events null_schema calls empty_db) !! "ana" = Some r ->
    state r = Some Moderate.
Proof.
  intros calls.
  assert (Hc : forall uid, state_consistent null_schema empty_db uid).
  { intros uid r Hr. unfold empty_db in Hr; simpl in Hr.
    by rewrite lookup_empty in Hr. }
  split; [exact Hc|]. intros r Hr.
  exact (state_follows_today null_schema calls empty_db Hc "ana" r Hr).
Defined.

(** X14. With durations that are not negative the stored state never
    improves: over sequential [ingest_event] calls from a store whose
    states agree with its minutes, a user's state can only stay or move
    from Healthy towards Excessive. *)
Theorem state_never_improves sc calls d uid r r' s s' :
  (forall u, state_consistent sc d u) ->
  Forall (fun c => 0 <= duration (snd c)) calls ->
  digital_twins d !! uid = Some r ->
  digital_twins (run_events sc calls d) !! uid = Some r' ->
  state r = Some s ->
  state r' = Some s' ->
  severity s <= severity s'.
Proof.
  intros Hc Hpos Hr Hr' Hs Hs'.
  rewrite (Hc uid r Hr) in Hs.
  rewrite (state_consistent_run sc calls d Hc uid r' Hr') in Hs'.
  simplify_eq. apply classify_monotone. by apply run_events_today_mono.
Qed.

Lemma state_never_improves_witness :
  let calls :=
    [(quiet (Clock.hm 12 0) 2, play "ana" 55);
     (quiet (Clock.hm 14 0) 3, play "ana" 60)] in
  exists r r',
    (forall u, state_consistent null_schema ana_played_10 u) /\
    Forall (fun c => 0 <= duration (snd c)) calls /\
    digital_twins ana_played_10 !! "ana" = Some r /\
    digital_twins (run_events null_schema calls ana_played_10) !! "ana"
      = Some r' /\
    state r = Some Healthy /\
    state r' = Some Excessive /\
    severity Healthy <= severity Excessive.
Proof.
  intros calls.
  assert (Hc : forall u, state_consistent null_schema ana_played_10 u).
  { intros u.
    apply (state_consistent_run null_schema
             [(quiet (Clock.hm 12 0) 1, play "ana" 10)] empty_db).
    intros u' r Hr. unfold empty_db in Hr; simpl in Hr.
    by rewrite lookup_empty in Hr. }
  assert (Hpos : Forall (fun c => 0 <= duration (snd c)) calls)
    by (repeat constructor; simpl; lia).
  destruct (digital_twins ana_played_10 !! "ana") as [r|] eqn:Hr;
    [|by vm_compute in Hr].
  destruct (digital_twins (run_events null_schema calls ana_played_10) !! "ana")
    as [r'|] eqn:Hr'; [|by vm_compute in Hr'].
  assert (Hs : state r = Some Healthy).
  { vm_compute in Hr. by simplify_eq. }
  assert (Hs' : state r' = Some Excessive).
  { vm_compute in Hr'. by simplify_eq. }
  exists r, r'.
  split; [exact Hc|]. split; [exact Hpos|]. split; [done|]. split; [done|].
  split; [exact Hs|]. split; [exact Hs'|].
  exact (state_never_improves null_schema calls ana_played_10 "ana" r r'
           Healthy Excessive Hc Hpos Hr Hr' Hs Hs').
Defined.

(** ** Requests of other users *)

Lemma request_step_event sc r d :
  req_event (fst (request_step sc r d)) = req_event r.
Proof. unfold request_step. by destruct (req_phase r). Qed.

Lemma request_step_other sc r d uid :
  user_id (req_event r) <> uid ->
  digital_twins (snd (request_step sc r d)) !! uid = digital_twins d !! uid.
Proof.
  intros Hne. unfold request_step. destruct (req_phase r); try done.
  unfold update_twin; simpl.
  rewrite lookup_alter_ne, lookup_insert_twin by done. simpl.
  destruct (digital_twins d !! uid); [done|]. by rewrite decide_False.
Qed.

(** X15. Requests never touch the twin of a user they are not for: under
    every schedule of a pool of concurrent [ingest_event] requests, the
    row of a user none of them names is exactly what it was. *)
Theorem other_users_untouched sc sched pool d uid :
  Forall (fun r => user_id (req_event r) <> uid) pool ->
  digital_twins (snd (run_schedule sc sched pool d)) !! uid =
  digital_twins d !! uid.
Proof.
  revert pool d. induction sched as [|i sched IH]; intros pool d Hpool; [done|].
  cbn [run_schedule]. destruct (pool !! i) as [r|] eqn:Hr; [|by apply IH].
  pose proof (proj1 (Forall_lookup _ _) Hpool i r Hr) as Hne.
  pose proof (request_step_event sc r d) as Hev.
  pose proof (request_step_other sc r d uid Hne) as Hrow.
  destruct (request_step sc r d) as [r' d']. cbn [fst snd] in *.
  rewrite IH; [done|].
  apply Forall_insert; [done|]. by rewrite Hev.
Qed.

Lemma other_users_untouched_witness :
  Forall (fun r => user_id (req_event r) <> "bob") two_requests /\
  digital_twins
    (snd (run_schedule null_schema [1; 0; 0; 1; 1]%nat two_requests
            ana_played_10)) !! "bob"
  = digital_twins ana_played_10 !! "bob".
Proof.
  assert (Hpool : Forall (fun r => user_id (req_event r) <> "bob") two_requests)
    by (repeat constructor; done).
  split; [exact Hpool|].
  exact (other_users_untouched null_schema [1; 0; 0; 1; 1]%nat two_requests
           ana_played_10 "bob" Hpool).
Defined.

(** ** Requests that all read before any writes *)

Section LastWriter.

Variable sc : schema.




Lemma sweep_length pool d : length (fst (sweep sc pool d)) = length pool.
Proof.
  revert d. induction pool as [|r pool IH]; intros d; [done|].
  cbn [sweep]. destruct (request_step sc r d) as [r' d1].
  specialize (IH d1). destruct (sweep sc pool d1). cbn [fst length] in *.
  by rewrite IH.
Qed.







End LastWriter.




(** ** A threshold update and an event, in either order *)

Lemma update_ops_ok w d uid :
  first_fault w threshold_ops = None ->
  first_fault w (update_ops d uid) = None.
Proof.
  intros Hok. no_faults Hok. unfold update_ops.
  destruct (digital_twins d !! uid); cbn [first_fault];
    by rewrite ?Hcall, ?Hcall0, ?Hcall1, ?Hcall2, ?Hcall3.
Qed.

Lemma prior_after_event sc now t e d uid :
  uid <> user_id e \/ is_Some (digital_twins d !! uid) ->
  prior_thresholds (persist_event sc now t e d) uid = prior_thresholds d uid.
Proof.
  intros Hcase. unfold prior_thresholds. rewrite persist_event_lookup.
  case_decide as Hu; [|done]. subst uid.
  destruct Hcase as [Hne|[r Hr]]; [done|]. by rewrite Hr.
Qed.

Lemma events_persist_event sc now t e d :
  events (persist_event sc now t e d) = (events d ++ [ledger_row e])%list.
Proof.
  unfold persist_event, update_twin, insert_twin, insert_event; simpl.
  by destruct (digital_twins d !! user_id e).
Qed.

Lemma events_store_thresholds sc t th uid d :
  events (update_twin (set_thresholds t th) uid (insert_twin sc t uid d)) =
  events d.
Proof.
  unfold update_twin, insert_twin; simpl.
  by destruct (digital_twins d !! uid).
Qed.

(** X17. A threshold update and an event commute: applied in either order
    to a store, for different users or for a user whose row exists, they
    leave the same thresholds, aggregates and state in every row and the
    same ledger. *)
Theorem threshold_update_commutes_with_event sc w1 w2 e uid body d :
  first_fault w1 ingest_ops = None ->
  first_fault w2 threshold_ops = None ->
  uid <> user_id e \/ is_Some (digital_twins d !! uid) ->
  let dA := snd (update_threshold sc w2 uid body
                   (snd (ingest_event sc w1 e d))) in
  let dB := snd (ingest_event sc w1 e
                   (snd (update_threshold sc w2 uid body d))) in
  (forall uid',
     content <$> (digital_twins dA !! uid') =
     content <$> (digital_twins dB !! uid')) /\
  events dA = events dB.
Proof.
  intros Hing Hthr Hcase dA dB. subst dA dB.
  rewrite !update_threshold_store, !ingest_event_store, Hing.
  rewrite !(update_ops_ok w2 _ uid Hthr).
  rewrite (prior_after_event sc _ _ e d uid Hcase).
  set (th := merge_thresholds body (prior_thresholds d uid)).
  split.
  - intros uid'. rewrite lookup_store_thresholds.
    rewrite !persist_event_lookup. rewrite !lookup_store_thresholds.
    destruct (decide (uid = uid')) as [<-|Hu];
      destruct (decide (user_id e = uid)) as [He|He];
      try (destruct (decide (user_id e = uid')) as [He'|He']);
      try congruence; cbv zeta;
      destruct (digital_twins d !! uid) as [r|] eqn:Hr; try done;
      try (destruct (digital_twins d !! uid') as [r'|] eqn:Hr'; done).
  - by rewrite events_store_thresholds, !events_persist_event,
      events_store_thresholds.
Qed.

Lemma threshold_update_commutes_with_event_witness :
  let w1 := quiet (Clock.hm 23 0) 2 in
  let w2 := quiet (Clock.hm 23 5) 3 in
  let body := {| daily := None; night := Some 40 |} in
  let dA := snd (update_threshold null_schema w2 "ana" body
                   (snd (ingest_event null_schema w1 (play "ana" 30)
                           ana_played_10))) in
  let dB := snd (ingest_event null_schema w1 (play "ana" 30)
                   (snd (update_threshold null_schema w2 "ana" body
                           ana_played_10))) in
  first_fault w1 ingest_ops = None /\
  first_fault w2 threshold_ops = None /\
  ("ana" <> user_id (play "ana" 30) \/
   is_Some (digital_twins ana_played_10 !! "ana")) /\
  content <$> (digital_twins dA !! "ana") =
  content <$> (digital_twins dB !! "ana").
Proof.
  intros w1 w2 body dA dB.
  assert (Hing : first_fault w1 ingest_ops = None) by reflexivity.
  assert (Hthr : first_fault w2 threshold_ops = None) by reflexivity.
  assert (Hcase : "ana" <> user_id (play "ana" 30) \/
                  is_Some (digital_twins ana_played_10 !! "ana"))
    by (right; vm_compute; eauto).
  split; [exact Hing|]. split; [exact Hthr|]. split; [exact Hcase|].
  exact (proj1 (threshold_update_commutes_with_event null_schema w1 w2
                  (play "ana" 30) "ana" body ana_played_10 Hing Hthr Hcase)
           "ana").
Defined.

(** For a new user the order can matter: [update_threshold] starts a
    missing row from [{daily:120, night:60}], whatever the table's own
    default, while a row created by [ingest_event] carries that default. *)
Example new_user_order_matters :
  let w := quiet (Clock.hm 12 0) 1 in
  let body := {| daily := None; night := Some 40 |} in
  fst (update_threshold strict_schema w "ana" body
         (snd (ingest_event strict_schema w (play "ana" 30) empty_db)))
    = ThresholdsSet "ana" (<["daily" := 200]> (<["night" := 40]> ∅)) /\
  fst (update_threshold strict_schema w "ana" body empty_db)
    = ThresholdsSet "ana" (<["daily" := 120]> (<["night" := 40]> ∅)).
Proof. split; by vm_compute. Qed.

(** ** A threshold update without fields *)

(** X18. [update_threshold] with neither field supplied still writes: it
    returns and stores the thresholds the user had, so stored thresholds
    are unchanged, while a row whose thresholds were null or empty, and a
    row created by the call, end up holding [{daily:120, night:60}]. *)
Theorem empty_update_materialises sc w uid body d :
  first_fault w threshold_ops = None ->
  daily body = None ->
  night body = None ->
  let d' := snd (update_threshold sc w uid body d) in
  fst (update_threshold sc w uid body d)
    = ThresholdsSet uid (prior_thresholds d uid) /\
  thresholds <$> (digital_twins d' !! uid)
    = Some (Some (prior_thresholds d uid)) /\
  (forall r m, digital_twins d !! uid = Some r -> thresholds r = Some m ->
               m <> ∅ -> prior_thresholds d uid = m) /\
  (forall r, digital_twins d !! uid = Some r ->
             truthy (thresholds r) = false ->
             prior_thresholds d uid = default_thresholds) /\
  (digital_twins d !! uid = None ->
   prior_thresholds d uid = default_thresholds).
Proof.
  intros Hok Hd Hn d'. subst d'.
  rewrite (update_threshold_outcome sc w uid body d Hok). cbv zeta.
  cbn [fst snd].
  assert (Hmerge : merge_thresholds body (prior_thresholds d uid)
                   = prior_thresholds d uid).
  { unfold merge_thresholds. by rewrite Hd, Hn. }
  rewrite Hmerge. split; [done|]. split; [|split; [|split]].
  - rewrite lookup_store_thresholds, decide_True by done. done.
  - intros r m Hr Hth Hne. unfold prior_thresholds, or_else, truthy.
    rewrite Hr, Hth. by rewrite bool_decide_eq_false_2.
  - intros r Hr Hfalsy. unfold prior_thresholds, or_else.
    rewrite Hr. destruct (thresholds r); [|done]. by rewrite Hfalsy.
  - intros Hnone. unfold prior_thresholds. by rewrite Hnone.
Qed.

Lemma empty_update_materialises_witness :
  let w := quiet (Clock.hm 12 0) 5 in
  let body := {| daily := None; night := None |} in
  let d' := snd (update_threshold null_schema w "ana" body ana_played_10) in
  first_fault w threshold_ops = None /\
  daily body = None /\
  night body = None /\
  thresholds <$> (digital_twins ana_played_10 !! "ana") = Some None /\
  thresholds <$> (digital_twins d' !! "ana") = Some (Some default_thresholds).
Proof.
  intros w body d'.
  assert (Hok : first_fault w threshold_ops = None) by reflexivity.
  assert (Hd : daily body = None) by reflexivity.
  assert (Hn : night body = None) by reflexivity.
  split; [exact Hok|]. split; [exact Hd|]. split; [exact Hn|].
  split; [by vm_compute|].
  destruct (empty_update_materialises null_schema w "ana" body ana_played_10
              Hok Hd Hn) as (_ & Hstored & _).
  exact Hstored.
Defined.
